(** * qb-multicharacter: the character-creation validator (html/validation.js)

    A shallow embedding of [CharacterValidator] and [initializeValidator],
    together with the parts of the JavaScript runtime the validator calls:
    [RegExp.prototype.test] for the patterns the file builds, [Number] on
    strings, [String.prototype.split], and the [Date] arithmetic of
    ECMA-262 (MakeDay, YearFromTime, TimeClip, ...).

    Conventions of the model.
    - A JavaScript string is a [string] of code units below 256.
    - A form value is [option string]: [None] is [undefined].
    - A call that can raise is in the [js] monad; [Throw] is the exception.
    - Numbers are [jsnum]: NaN, the two infinities, or an exact rational.
      Rounding to binary64 is not modelled; every number the validator
      computes from a date that passed the strict format is a small
      integer, where both agree.
    - The host is a record: the offset of the local zone from UTC
      (a constant offset, in ms) and the clock read by [new Date()]. *)

From Stdlib Require Import ZArith QArith Lia Bool List Ascii String Permutation.
Import ListNotations.

Open Scope bool_scope.
Open Scope string_scope.
Open Scope Z_scope.

(* ================================================================== *)
(** ** Results of calls that may raise *)

Inductive exn := TypeError.

Inductive js (A : Type) : Type :=
| Ret (a : A)
| Throw (e : exn).
Arguments Ret {A} a.
Arguments Throw {A} e.

Definition bind {A B} (c : js A) (k : A -> js B) : js B :=
  match c with
  | Ret a => k a
  | Throw e => Throw e
  end.

Notation "x <- c ;; k" := (bind c (fun x => k))
  (at level 61, c at next level, right associativity).

(* ================================================================== *)
(** ** Strings and form values *)

(** A value read from the form: a string, or [undefined]. *)
Definition value := option string.

(** [!!value]: [undefined] and the empty string are falsy. *)
Definition truthy (v : value) : bool :=
  match v with
  | None => false
  | Some s => negb (s =? "")%string
  end.

(** [value.length]: raises on [undefined]. *)
Definition jsLength (v : value) : js Z :=
  match v with
  | None => Throw TypeError
  | Some s => Ret (Z.of_nat (String.length s))
  end.

(** ToString, as applied by [RegExp.prototype.test] to its argument. *)
Definition ToString (v : value) : string :=
  match v with
  | None => "undefined"
  | Some s => s
  end.

(** [dateString || ""]. *)
Definition orEmpty (v : value) : string :=
  match v with
  | None => ""
  | Some s => s
  end.

Definition code (c : ascii) : Z := Z.of_nat (nat_of_ascii c).

Definition inRange (lo hi : Z) (c : ascii) : bool :=
  (lo <=? code c) && (code c <=? hi).

Definition isDigit (c : ascii) : bool := inRange 48 57 c.

(** [s.split(sep)] for a one-character separator: the pieces between the
    occurrences of [sep]; never the empty list. *)
Fixpoint split (sep : ascii) (s : string) : list string :=
  match s with
  | EmptyString => [""]
  | String c rest =>
      if Ascii.eqb c sep then "" :: split sep rest
      else match split sep rest with
           | [] => [String c ""]
           | p :: ps => String c p :: ps
           end
  end.

(** [arr.join(sep)]. *)
Fixpoint join (sep : string) (l : list string) : string :=
  match l with
  | [] => ""
  | [x] => x
  | x :: rest => x ++ sep ++ join sep rest
  end.

(* ================================================================== *)
(** ** Regular expressions

    The fragment of the pattern language that validation.js uses:
    literal characters, [\d], [\b], [^], [$], sequence and alternation
    (a group only groups; [{n}] is n-fold sequence).  Matching follows
    ECMA-262: a matcher takes the match state and a continuation, and
    alternation backtracks into its second branch when the continuation
    fails. *)

Module RegExp.

Inductive node :=
| Empty
| Char (c : ascii)
| Digit
| WordBoundary
| Bol
| Eol
| Seq (a b : node)
| Alt (a b : node).

Record t := { pattern : node; ignoreCase : bool }.

(** The state: the character before the current position, if any, and
    the input from the current position on. *)
Definition state := (option ascii * string)%type.

(** Canonicalize, for a pattern with the [i] flag and without [u]:
    the upper-case form when it is one code unit, on code units below
    256. *)
Definition canonicalize (ic : bool) (c : ascii) : ascii :=
  if ic && (inRange 97 122 c
            || (inRange 224 254 c && negb (code c =? 247)))
  then ascii_of_nat (nat_of_ascii c - 32)
  else c.

(** [\w] = [A-Za-z0-9_]. *)
Definition isWordChar (c : ascii) : bool :=
  inRange 97 122 c || inRange 65 90 c || inRange 48 57 c || (code c =? 95).

Definition wordBefore (st : state) : bool :=
  match fst st with Some c => isWordChar c | None => false end.

Definition wordAfter (st : state) : bool :=
  match snd st with String c _ => isWordChar c | EmptyString => false end.

Fixpoint m (ic : bool) (r : node) (st : state) (k : state -> bool) : bool :=
  match r with
  | Empty => k st
  | Char c =>
      match snd st with
      | String x rest =>
          if Ascii.eqb (canonicalize ic x) (canonicalize ic c)
          then k (Some x, rest) else false
      | EmptyString => false
      end
  | Digit =>
      match snd st with
      | String x rest => if isDigit x then k (Some x, rest) else false
      | EmptyString => false
      end
  | WordBoundary =>
      if xorb (wordBefore st) (wordAfter st) then k st else false
  | Bol => match fst st with None => k st | Some _ => false end
  | Eol => match snd st with EmptyString => k st | String _ _ => false end
  | Seq a b => m ic a st (fun st' => m ic b st' k)
  | Alt a b => m ic a st k || m ic b st k
  end.

(** The loop of RegExpBuiltinExec for a pattern that is neither global
    nor sticky: try every start position, from the left. *)
Fixpoint search (re : t) (prev : option ascii) (s : string) : bool :=
  m (ignoreCase re) (pattern re) (prev, s) (fun _ => true)
  || match s with
     | EmptyString => false
     | String c rest => search re (Some c) rest
     end.

(** [re.test(v)]. *)
Definition test (re : t) (v : value) : bool :=
  search re None (ToString v).

(** A literal string as a sequence of [Char]. *)
Fixpoint literal (s : string) : node :=
  match s with
  | EmptyString => Empty
  | String c rest => Seq (Char c) (literal rest)
  end.

(** [r{n}]. *)
Fixpoint times (n : nat) (r : node) : node :=
  match n with
  | O => Empty
  | S n' => Seq r (times n' r)
  end.

(** A disjunction of alternatives, left to right. *)
Fixpoint disjunction (alts : list node) : node :=
  match alts with
  | [] => Empty
  | [a] => a
  | a :: rest => Alt a (disjunction rest)
  end.

(** Characters with a meaning of their own in a pattern. *)
Definition isSyntaxChar (c : ascii) : bool :=
  existsb (Ascii.eqb c)
    (list_ascii_of_string "\^$.*+?()[]{}|").

Fixpoint isLiteralTerm (s : string) : bool :=
  match s with
  | EmptyString => true
  | String c rest => negb (isSyntaxChar c) && isLiteralTerm rest
  end.

(** The source text that [initializeValidator] builds from the terms. *)
Definition sourceOfTerms (terms : list string) : string :=
  "(" ++ join "|" terms ++ ")\b".

(** [new RegExp("(" + terms.join("|") + ")\\b", "i")], for terms that
    hold no syntax character: each term is then one alternative of the
    group, read as a literal, and an empty list joins to the empty
    string, which is a single empty alternative.  [None] for a term with
    a syntax character: the code splices such a term into the pattern
    unescaped, where it is read as syntax (the term [a.s] then matches
    [abs]); that reading is outside the fragment above, and what is
    proved of [ofTerms] is proved of lists of literal terms only. *)
Definition ofTerms (terms : list string) : option t :=
  if forallb isLiteralTerm terms then
    let alts := match terms with [] => [""] | _ => terms end in
    Some {| pattern := Seq (disjunction (map literal alts)) WordBoundary;
            ignoreCase := true |}
  else None.

(** [/^$/]. *)
Definition emptyOnly : t :=
  {| pattern := Seq Bol Eol; ignoreCase := false |}.

(** [/^\d{4}-\d{2}-\d{2}$/]. *)
Definition isoDate : t :=
  {| pattern :=
       Seq Bol (Seq (times 4 Digit) (Seq (Char "-") (Seq (times 2 Digit)
         (Seq (Char "-") (Seq (times 2 Digit) Eol)))));
     ignoreCase := false |}.

End RegExp.

(* ================================================================== *)
(** ** Numbers *)

Inductive jsnum :=
| NaN
| PInf
| NInf
| Fin (q : Q).

Definition ofZ (z : Z) : jsnum := Fin (inject_Z z).

(** [!x] for a number that may be [undefined] ([None]): [undefined],
    NaN and zero are falsy. *)
Definition falsy (x : option jsnum) : bool :=
  match x with
  | None => true
  | Some NaN => true
  | Some (Fin q) => Qeq_bool q 0
  | Some _ => false
  end.

(** ToNumber of a destructured element: [undefined] becomes NaN. *)
Definition ToNumber (x : option jsnum) : jsnum :=
  match x with
  | None => NaN
  | Some n => n
  end.

Definition numSub (a b : jsnum) : jsnum :=
  match a, b with
  | NaN, _ | _, NaN => NaN
  | Fin x, Fin y => Fin (x - y)
  | PInf, PInf | NInf, NInf => NaN
  | PInf, _ | _, NInf => PInf
  | NInf, _ | _, PInf => NInf
  end.

(** [a === b] on numbers. *)
Definition numEq (a b : jsnum) : bool :=
  match a, b with
  | Fin x, Fin y => Qeq_bool x y
  | PInf, PInf | NInf, NInf => true
  | _, _ => false
  end.

(** [a === b] where [b] may be [undefined]. *)
Definition strictEq (a : jsnum) (b : option jsnum) : bool :=
  match b with
  | None => false
  | Some n => numEq a n
  end.

(** ToIntegerOrInfinity on a finite number: truncation towards zero.
    [None] for NaN and the infinities, which the date operations
    reject before they truncate. *)
Definition finiteTrunc (a : jsnum) : option Z :=
  match a with
  | Fin q => Some (Z.quot (Qnum q) (Zpos (Qden q)))
  | _ => None
  end.

(** *** [Number(string)]: StringToNumber of ECMA-262

    The value is the mathematical value of the literal, not rounded to
    binary64.  The two agree on strings of digits of the lengths the
    strict date format allows; they differ on literals that binary64
    rounds, such as a fraction too small to tell from zero or too close
    to the next integer. *)

Definition isSpace (c : ascii) : bool :=
  existsb (Z.eqb (code c)) [9; 10; 11; 12; 13; 32; 160].

Fixpoint trimLeft (s : string) : string :=
  match s with
  | String c rest => if isSpace c then trimLeft rest else s
  | EmptyString => s
  end.

Fixpoint trimRight (s : string) : string :=
  match s with
  | EmptyString => ""
  | String c rest =>
      let rest' := trimRight rest in
      if isSpace c && (rest' =? "")%string then "" else String c rest'
  end.

Definition digitIn (base : Z) (c : ascii) : option Z :=
  let d := if isDigit c then code c - 48
           else if inRange 97 102 c then code c - 87
           else if inRange 65 70 c then code c - 55
           else 16 in
  if d <? base then Some d else None.

(** The longest prefix of digits in [base]: its value, the number of
    digits, and what follows. *)
Fixpoint readDigits (base : Z) (s : string) (acc : Z) (n : nat)
  : Z * nat * string :=
  match s with
  | String c rest =>
      match digitIn base c with
      | Some d => readDigits base rest (acc * base + d) (S n)
      | None => (acc, n, s)
      end
  | EmptyString => (acc, n, s)
  end.

Definition isOneOf (cs : string) (c : ascii) : bool :=
  existsb (Ascii.eqb c) (list_ascii_of_string cs).

(** NonDecimalIntegerLiteral: [0x], [0o], [0b] and digits. *)
Definition nonDecimal (s : string) : option jsnum :=
  match s with
  | String z (String p rest) =>
      let base := if isOneOf "xX" p then Some 16
                  else if isOneOf "oO" p then Some 8
                  else if isOneOf "bB" p then Some 2
                  else None in
      match Ascii.eqb z "0", base with
      | true, Some b =>
          let '(v, n, r) := readDigits b rest 0 0 in
          if (0 <? n)%nat && (r =? "")%string then Some (ofZ v) else None
      | _, _ => None
      end
  | _ => None
  end.

(** StrUnsignedDecimalLiteral, with its mathematical value. *)
Definition unsignedDecimal (s : string) : option jsnum :=
  if (s =? "Infinity")%string then Some PInf else
  let '(ip, ni, r1) := readDigits 10 s 0 0 in
  let '(fp, nf, r2) :=
    match r1 with
    | String "."%char r => readDigits 10 r 0 0
    | _ => (0, 0%nat, r1)
    end in
  if (ni =? 0)%nat && (nf =? 0)%nat then None else
  let scale := 10 ^ Z.of_nat nf in
  let mant := Qmake (ip * scale + fp) (Z.to_pos scale) in
  match r2 with
  | EmptyString => Some (Fin mant)
  | String e r3 =>
      if isOneOf "eE" e then
        let '(neg, r4) :=
          match r3 with
          | String "+"%char r => (false, r)
          | String "-"%char r => (true, r)
          | _ => (false, r3)
          end in
        let '(ev, ne, r5) := readDigits 10 r4 0 0 in
        if (0 <? ne)%nat && (r5 =? "")%string
        then Some (Fin (mant * Qpower 10 (if neg then - ev else ev)))
        else None
      else None
  end.

Definition negate (a : jsnum) : jsnum :=
  match a with
  | NaN => NaN
  | PInf => NInf
  | NInf => PInf
  | Fin q => Fin (- q)
  end.

Definition signedDecimal (s : string) : option jsnum :=
  match s with
  | String "+"%char r => unsignedDecimal r
  | String "-"%char r => option_map negate (unsignedDecimal r)
  | _ => unsignedDecimal s
  end.

Definition Number (s : string) : jsnum :=
  let t := trimRight (trimLeft s) in
  if (t =? "")%string then ofZ 0 else
  match nonDecimal t with
  | Some n => n
  | None =>
      match signedDecimal t with
      | Some n => n
      | None => NaN
      end
  end.

(* ================================================================== *)
(** ** Dates: the time arithmetic of ECMA-262 *)

Definition msPerDay : Z := 86400000.

Definition Day (t : Z) : Z := t / msPerDay.

Definition isLeap (y : Z) : bool :=
  (y mod 4 =? 0) && (negb (y mod 100 =? 0) || (y mod 400 =? 0)).

Definition DaysInYear (y : Z) : Z := if isLeap y then 366 else 365.

Definition DayFromYear (y : Z) : Z :=
  365 * (y - 1970) + (y - 1969) / 4 - (y - 1901) / 100 + (y - 1601) / 400.

(** The largest [y] with [DayFromYear y <= day]: an estimate from the
    mean length of a year, off by one at most, then corrected. *)
Definition YearFromDay (day : Z) : Z :=
  let y0 := 1970 + (day * 400) / 146097 in
  if day <? DayFromYear y0 then y0 - 1
  else if DayFromYear (y0 + 1) <=? day then y0 + 1
  else y0.

Definition YearFromTime (t : Z) : Z := YearFromDay (Day t).

Definition leapDay (y : Z) : Z := if isLeap y then 1 else 0.

Definition InLeapYear (t : Z) : Z := leapDay (YearFromTime t).

Definition DayWithinYear (t : Z) : Z :=
  Day t - DayFromYear (YearFromTime t).

(** The day of the year on which month [mn] (0..11) starts; [mn = 12]
    is the start of the next year. *)
Definition monthStart (leap : Z) (mn : Z) : Z :=
  match mn with
  | 0 => 0
  | 1 => 31
  | 2 => 59 + leap
  | 3 => 90 + leap
  | 4 => 120 + leap
  | 5 => 151 + leap
  | 6 => 181 + leap
  | 7 => 212 + leap
  | 8 => 243 + leap
  | 9 => 273 + leap
  | 10 => 304 + leap
  | 11 => 334 + leap
  | _ => 365 + leap
  end.

Definition monthOfDay (leap : Z) (dwy : Z) : Z :=
  if dwy <? 31 then 0
  else if dwy <? 59 + leap then 1
  else if dwy <? 90 + leap then 2
  else if dwy <? 120 + leap then 3
  else if dwy <? 151 + leap then 4
  else if dwy <? 181 + leap then 5
  else if dwy <? 212 + leap then 6
  else if dwy <? 243 + leap then 7
  else if dwy <? 273 + leap then 8
  else if dwy <? 304 + leap then 9
  else if dwy <? 334 + leap then 10
  else 11.

Definition MonthFromTime (t : Z) : Z :=
  monthOfDay (InLeapYear t) (DayWithinYear t).

Definition DateFromTime (t : Z) : Z :=
  DayWithinYear t - monthStart (InLeapYear t) (MonthFromTime t) + 1.

(** MakeFullYear: the years 0..99 stand for 1900..1999. *)
Definition MakeFullYear (y : jsnum) : jsnum :=
  match finiteTrunc y with
  | Some t => if (0 <=? t) && (t <=? 99) then ofZ (1900 + t) else ofZ t
  | None => y
  end.

(** MakeDay: the day number of day [date] of month [month] of [year],
    months and days outside their range carried over. *)
Definition dayNumber (y mo dt : Z) : Z :=
  let ym := y + mo / 12 in
  let mn := mo mod 12 in
  DayFromYear ym + monthStart (leapDay ym) mn + dt - 1.

Definition MakeDay (year month date : jsnum) : option Z :=
  match finiteTrunc year, finiteTrunc month, finiteTrunc date with
  | Some y, Some mo, Some dt => Some (dayNumber y mo dt)
  | _, _, _ => None
  end.

(** MakeDate with a time of day of zero. *)
Definition MakeDate (day : option Z) : option Z :=
  option_map (fun d => d * msPerDay) day.

Definition TimeClip (t : option Z) : option Z :=
  match t with
  | Some x => if 8640000000000000 <? Z.abs x then None else Some x
  | None => None
  end.

(** A Date object is its time value; [None] is NaN, an invalid date. *)
Definition Date := option Z.

Definition InvalidDate : Date := None.

(** [Date.UTC(y, m, d)]. *)
Definition DateUTC (y mo d : jsnum) : option Z :=
  TimeClip (MakeDate (MakeDay (MakeFullYear y) mo d)).

(** [new Date(timeValue)]. *)
Definition newDate (t : option Z) : Date := TimeClip t.

Definition isNaNDate (d : Date) : bool :=
  match d with None => true | Some _ => false end.

(** [a > b] and [a < b] on dates: false when either is invalid. *)
Definition dateGt (a b : Date) : bool :=
  match a, b with
  | Some x, Some y => y <? x
  | _, _ => false
  end.

Definition dateLt (a b : Date) : bool := dateGt b a.

Definition getUTCFullYear (d : Date) : jsnum :=
  match d with Some t => ofZ (YearFromTime t) | None => NaN end.

Definition getUTCMonth (d : Date) : jsnum :=
  match d with Some t => ofZ (MonthFromTime t) | None => NaN end.

Definition getUTCDate (d : Date) : jsnum :=
  match d with Some t => ofZ (DateFromTime t) | None => NaN end.

(** The host: the offset of local time from UTC, in ms, and the time
    value that [new Date()] reads. *)
Record Host := { LocalTZA : Z; clock : Z }.

(* ================================================================== *)
(** ** Objects used as tables

    An object literal is its own properties, in creation order (the keys
    of validation.js are not array indices, so creation order is the
    enumeration order), on top of [Object.prototype]. *)

(** The properties of [Object.prototype] (ECMA-262, with Annex B): all
    functions, except [__proto__], which reads as the prototype object;
    none is enumerable and none is iterable. *)
Definition objectPrototypeNames : list string :=
  [ "constructor"; "hasOwnProperty"; "isPrototypeOf";
    "propertyIsEnumerable"; "toLocaleString"; "toString"; "valueOf";
    "__proto__"; "__defineGetter__"; "__defineSetter__";
    "__lookupGetter__"; "__lookupSetter__" ].

Inductive property (A : Type) : Type :=
| Own (a : A)
| Inherited
| Absent.
Arguments Own {A} a.
Arguments Inherited {A}.
Arguments Absent {A}.

Fixpoint assoc {A} (k : string) (l : list (string * A)) : option A :=
  match l with
  | [] => None
  | (k', a) :: rest => if (k =? k')%string then Some a else assoc k rest
  end.

(** [obj[k]]. *)
Definition getProperty {A} (obj : list (string * A)) (k : string)
  : property A :=
  match assoc k obj with
  | Some a => Own a
  | None =>
      if existsb (String.eqb k) objectPrototypeNames then Inherited
      else Absent
  end.

(** The keys that [for (k in obj)] visits: the own keys in order; the
    prototype adds none, its properties are not enumerable. *)
Definition forIn {A} (obj : list (string * A)) : list string :=
  map fst obj.

(** [obj.hasOwnProperty(k)]. *)
Definition hasOwnProperty {A} (obj : list (string * A)) (k : string) : bool :=
  match assoc k obj with Some _ => true | None => false end.

(** The record submitted by the form: its own string fields.  The keys
    the validator reads are those of its rule table, none of which is a
    name of [Object.prototype], so a field that is not an own property
    reads [undefined]. *)
Definition Character := list (string * string).

Definition getField (character : Character) (field : string) : value :=
  assoc field character.

(* ================================================================== *)
(** ** CharacterValidator *)

Inductive ValidationResult :=
| Valid
| Invalid (field message : string).

Definition isValid (r : ValidationResult) : bool :=
  match r with Valid => true | Invalid _ _ => false end.

(** A rule: its predicate and its error code.  The predicate runs in
    the host of the call: the date rules read the clock when they are
    evaluated, not when the table is built. *)
Record Rule := { test : Host -> value -> js bool; message : string }.

Record CharacterValidator := {
  profanityRegex : RegExp.t;
  validators : list (string * list Rule)
}.

Section WithHost.

Variable h : Host.

Definition UTC (t : Z) : Z := t - LocalTZA h.
Definition LocalTime (t : Z) : Z := t + LocalTZA h.

(** [new Date(y, m, d)]: the fields are local time.  Local time is UTC
    plus the constant offset of the host; a zone whose rules skip a
    whole local day (Pacific/Apia on 2011-12-30) is outside this model:
    there the date that is built falls on the next day. *)
Definition newDateLocal (y mo d : jsnum) : Date :=
  TimeClip (option_map UTC (MakeDate (MakeDay (MakeFullYear y) mo d))).

Definition getFullYear (d : Date) : jsnum :=
  match d with Some t => ofZ (YearFromTime (LocalTime t)) | None => NaN end.

Definition getMonth (d : Date) : jsnum :=
  match d with Some t => ofZ (MonthFromTime (LocalTime t)) | None => NaN end.

Definition getDate (d : Date) : jsnum :=
  match d with Some t => ofZ (DateFromTime (LocalTime t)) | None => NaN end.

(** The first three elements of [s.split("-").map(Number)]; a missing
    one is [undefined]. *)
Definition components (s : string) : option jsnum * option jsnum * option jsnum :=
  let parts := map Number (split "-" s) in
  (nth_error parts 0, nth_error parts 1, nth_error parts 2).

Definition parseISODate (dateString : value) : Date :=
  let '(y, mo, d) := components (orEmpty dateString) in
  if falsy y || falsy mo || falsy d then InvalidDate
  else newDate (DateUTC (ToNumber y) (numSub (ToNumber mo) (ofZ 1)) (ToNumber d)).

Definition todayUTC : Date :=
  let now : Date := Some (clock h) in
  newDate (DateUTC (getUTCFullYear now) (getUTCMonth now) (getUTCDate now)).

(** The cutoff of both age rules: today, [years] earlier. *)
Definition cutoff (years : Z) : Date :=
  let today := todayUTC in
  newDate (DateUTC (numSub (getUTCFullYear today) (ofZ years))
                   (getUTCMonth today) (getUTCDate today)).

Definition isTooYoung (dateString : value) (minYears : Z) : bool :=
  let dob := parseISODate dateString in
  if isNaNDate dob then true
  else dateGt dob (cutoff minYears).

Definition isTooOld (dateString : value) (maxYears : Z) : bool :=
  let dob := parseISODate dateString in
  if isNaNDate dob then true
  else dateLt dob (cutoff maxYears).

Definition isValidDate (dateString : value) : js bool :=
  if negb (RegExp.test RegExp.isoDate dateString) then Ret false
  else
    match dateString with
    | None => Throw TypeError
    | Some s =>
        let '(y, mo, d) := components s in
        let mo1 := numSub (ToNumber mo) (ofZ 1) in
        let date := newDateLocal (ToNumber y) mo1 (ToNumber d) in
        Ret (negb (isNaNDate date)
             && strictEq (getFullYear date) y
             && numEq (getMonth date) mo1
             && strictEq (getDate date) d)
    end.

End WithHost.

(** The constructor: the rule table, in the order of the source. *)
Definition newCharacterValidator (re : RegExp.t) : CharacterValidator :=
  let nonEmpty := {| test := fun _ v => Ret (truthy v);
                     message := "forgotten_field" |} in
  let minLength msg := {| test := fun _ v => n <- jsLength v ;; Ret (2 <=? n);
                          message := msg |} in
  let maxLength msg := {| test := fun _ v => n <- jsLength v ;; Ret (n <=? 16);
                          message := msg |} in
  let clean := {| test := fun _ v => Ret (negb (RegExp.test re v));
                  message := "profanity" |} in
  {| profanityRegex := re;
     validators :=
       [ ("firstname",
           [ nonEmpty; minLength "firstname_too_short";
             maxLength "firstname_too_long"; clean ]);
         ("lastname",
           [ nonEmpty; minLength "lastname_too_short";
             maxLength "lastname_too_long"; clean ]);
         ("nationality", [ nonEmpty; clean ]);
         ("gender", [ nonEmpty ]);
         ("date",
           [ nonEmpty;
             {| test := fun h v => isValidDate h v; message := "invalid_date" |};
             {| test := fun h v => Ret (negb (isTooYoung h v 8));
                message := "age_too_young" |};
             {| test := fun h v => Ret (negb (isTooOld h v 100));
                message := "age_too_old" |} ]) ] |}.

Section Validate.

Variable h : Host.

(** The loop of [validateField] over the rules of one field. *)
Fixpoint firstFailure (fieldName : string) (rules : list Rule) (v : value)
  : js ValidationResult :=
  match rules with
  | [] => Ret Valid
  | validator :: rest =>
      ok <- test validator h v ;;
      if negb ok then Ret (Invalid fieldName (message validator))
      else firstFailure fieldName rest v
  end.

(** [validateField]: a name with no property reads [undefined] and
    passes; an own property is the list of rules of the field; a name
    found on [Object.prototype] reads a function (or the prototype
    itself), which is truthy and is not iterable, so [for ... of]
    raises. *)
Definition validateField (cv : CharacterValidator) (fieldName : string)
  (v : value) : js ValidationResult :=
  match getProperty (validators cv) fieldName with
  | Absent => Ret Valid
  | Inherited => Throw TypeError
  | Own fieldValidators => firstFailure fieldName fieldValidators v
  end.

(** The loop of [validateCharacter] over the keys of the rule table. *)
Fixpoint validateFields (cv : CharacterValidator) (fields : list string)
  (character : Character) : js ValidationResult :=
  match fields with
  | [] => Ret Valid
  | field :: rest =>
      if hasOwnProperty (validators cv) field then
        result <- validateField cv field (getField character field) ;;
        if negb (isValid result) then Ret result
        else validateFields cv rest character
      else validateFields cv rest character
  end.

Definition validateCharacter (cv : CharacterValidator)
  (character : Character) : js ValidationResult :=
  validateFields cv (forIn (validators cv)) character.

End Validate.

(** The outcome of [initializeValidator]: the validator stored in the
    global [characterValidator], and the lines written by
    [console.error]. *)
Record Initialized := {
  characterValidator : CharacterValidator;
  consoleErrors : list string
}.

(** [initializeValidator()]; [profList] is [None] when the global is
    not defined.  The result is [None] only when a term of the list is
    outside the fragment of patterns modelled by [RegExp.ofTerms]. *)
Definition initializeValidator (profList : option (list string))
  : option Initialized :=
  match profList with
  | Some terms =>
      option_map
        (fun re => {| characterValidator := newCharacterValidator re;
                      consoleErrors := [] |})
        (RegExp.ofTerms terms)
  | None =>
      Some {| characterValidator := newCharacterValidator RegExp.emptyOnly;
              consoleErrors :=
                ["Profanity list not found. Validation may not work correctly."] |}
  end.

(** Hosts for examples: UTC, with the clock at noon of 2024-06-15 and
    of 2024-02-29. *)
Definition host20240615 : Host :=
  {| LocalTZA := 0; clock := 1718452800000 |}.

Definition host20240229 : Host :=
  {| LocalTZA := 0; clock := 1709208000000 |}.

(* ================================================================== *)
(** ** Vocabulary of the statements *)

(** The order of the rule table. *)
Definition fieldOrder : list string :=
  ["firstname"; "lastname"; "nationality"; "gender"; "date"].

(** The rules of a name field, in order: required, at least 2 and at
    most 16 characters, no forbidden term. *)
Definition nameRules (re : RegExp.t) (f short long : string) (v : value)
  : js ValidationResult :=
  if negb (truthy v) then Ret (Invalid f "forgotten_field")
  else n <- jsLength v ;;
       if negb (2 <=? n) then Ret (Invalid f short)
       else if negb (n <=? 16) then Ret (Invalid f long)
       else if negb (negb (RegExp.test re v))
            then Ret (Invalid f "profanity")
            else Ret Valid.

(** *** Calendar dates: year, month 0..11, day of the month *)

Definition daysInMonth (y mn : Z) : Z :=
  match mn with
  | 1 => if isLeap y then 29 else 28
  | 3 | 5 | 8 | 10 => 30
  | _ => 31
  end.

Definition realDate (y mn d : Z) : Prop :=
  0 <= mn <= 11 /\ 1 <= d <= daysInMonth y mn.

(** The calendar date of a time value, in UTC. *)
Definition civil (t : Z) : Z * Z * Z :=
  (YearFromTime t, MonthFromTime t, DateFromTime t).

(** Strictly earlier, on calendar dates. *)
Definition earlier (a b : Z * Z * Z) : Prop :=
  let '(y1, m1, d1) := a in
  let '(y2, m2, d2) := b in
  y1 < y2 \/ (y1 = y2 /\ (m1 < m2 \/ (m1 = m2 /\ d1 < d2))).

(** *** The strict date format *)

Fixpoint allDigits (s : string) : bool :=
  match s with
  | EmptyString => true
  | String c rest => isDigit c && allDigits rest
  end.

(** The value of a string of decimal digits. *)
Fixpoint decimalFrom (acc : Z) (s : string) : Z :=
  match s with
  | EmptyString => acc
  | String c rest => decimalFrom (acc * 10 + (code c - 48)) rest
  end.

Definition decimal (s : string) : Z := decimalFrom 0 s.

(** [s] is 4 digits, a dash, 2 digits, a dash, 2 digits, with these
    digit groups. *)
Definition isoShape (s ys ms ds : string) : Prop :=
  s = ys ++ "-" ++ ms ++ "-" ++ ds
  /\ String.length ys = 4%nat /\ String.length ms = 2%nat
  /\ String.length ds = 2%nat
  /\ allDigits ys = true /\ allDigits ms = true /\ allDigits ds = true.

(** Building the local date of year [y], month [mo] (1..12) and day [d]
    and reading its fields back gives the same numbers. *)
Definition roundTrips (h : Host) (y mo d : Z) : Prop :=
  exists t,
    newDateLocal h (ofZ y) (ofZ (mo - 1)) (ofZ d) = Some t
    /\ YearFromTime (LocalTime h t) = y
    /\ MonthFromTime (LocalTime h t) = mo - 1
    /\ DateFromTime (LocalTime h t) = d.

(** The same as a test: the checks of [isValidDate] on three integer
    components. *)
Definition readsBack (h : Host) (y mo d : Z) : bool :=
  match newDateLocal h (ofZ y) (ofZ (mo - 1)) (ofZ d) with
  | Some t =>
      (YearFromTime (LocalTime h t) =? y)
      && (MonthFromTime (LocalTime h t) =? mo - 1)
      && (DateFromTime (LocalTime h t) =? d)
  | None => false
  end.

(** The offset of a host's zone is less than a day. *)
Definition zoneInRange (h : Host) : Prop := Z.abs (LocalTZA h) <= msPerDay.

(** The clock of a host is a time value. *)
Definition clockInRange (h : Host) : Prop :=
  Z.abs (clock h) <= 8640000000000000.

(** *** Forbidden terms in a value *)

Fixpoint eqNoCase (a b : string) : bool :=
  match a, b with
  | EmptyString, EmptyString => true
  | String x a', String y b' =>
      Ascii.eqb (RegExp.canonicalize true x) (RegExp.canonicalize true y)
      && eqNoCase a' b'
  | _, _ => false
  end.

Fixpoint lastChar (s : string) : option ascii :=
  match s with
  | EmptyString => None
  | String c EmptyString => Some c
  | String _ rest => lastChar rest
  end.

Definition firstChar (s : string) : option ascii :=
  match s with
  | EmptyString => None
  | String c _ => Some c
  end.

Definition isWord (c : option ascii) : bool :=
  match c with Some x => RegExp.isWordChar x | None => false end.

Fixpoint allWord (s : string) : bool :=
  match s with
  | EmptyString => true
  | String c rest => RegExp.isWordChar c && allWord rest
  end.

(** The state after a literal term, read from a state in any letter
    case; [None] when the input does not continue with the term. *)
Fixpoint matchLiteral (t : string) (st : RegExp.state) : option RegExp.state :=
  match t with
  | EmptyString => Some st
  | String c t' =>
      match snd st with
      | String x rest =>
          if Ascii.eqb (RegExp.canonicalize true x) (RegExp.canonicalize true c)
          then matchLiteral t' (Some x, rest) else None
      | EmptyString => None
      end
  end.

(** The last character of [mid], or [prev] when [mid] is empty. *)
Definition lastOr (prev : option ascii) (mid : string) : option ascii :=
  match lastChar mid with Some c => Some c | None => prev end.

(** The alternatives of the pattern built from a list of terms. *)
Definition alternatives (terms : list string) : list string :=
  match terms with [] => [""] | _ => terms end.

(** Some term occurs in [s], in any letter case, and the occurrence
    ends at a word boundary: exactly one of the character before the
    end of the occurrence and the character after it is a word
    character. *)
Definition occursBeforeBoundary (terms : list string) (s : string) : Prop :=
  exists pre mid post t,
    s = pre ++ mid ++ post
    /\ In t (alternatives terms)
    /\ eqNoCase mid t = true
    /\ xorb (isWord (lastChar (pre ++ mid))) (isWord (firstChar post)) = true.

(** Some term is the end of [s], in any letter case. *)
Definition endsWithTerm (terms : list string) (s : string) : Prop :=
  exists pre mid t,
    s = pre ++ mid /\ In t (alternatives terms) /\ eqNoCase mid t = true.

(** *** Date components that make [parseISODate] fail *)

(** Missing, not numeric, or zero. *)
Definition unusable (c : option jsnum) : Prop :=
  c = None \/ c = Some NaN \/ exists q, c = Some (Fin q) /\ (q == 0)%Q.

(** The time value of the first instant of a UTC calendar day. *)
Definition midnight (y mn d : Z) : Z := dayNumber y mn d * msPerDay.

(** *** Vocabulary of the further properties *)

(** The error codes of the rule table. *)
Definition errorCodes : list string :=
  [ "forgotten_field"; "firstname_too_short"; "firstname_too_long";
    "lastname_too_short"; "lastname_too_long"; "profanity";
    "invalid_date"; "age_too_young"; "age_too_old" ].

(** Some character of [s] is a word character. *)
Fixpoint hasWord (s : string) : bool :=
  match s with
  | EmptyString => false
  | String c rest => RegExp.isWordChar c || hasWord rest
  end.

(** The two name fields with their length codes. *)
Definition nameField (f short long : string) : Prop :=
  (f = "firstname" /\ short = "firstname_too_short"
   /\ long = "firstname_too_long")
  \/ (f = "lastname" /\ short = "lastname_too_short"
      /\ long = "lastname_too_long").

(** The day number of the cutoff of a bound: today's UTC year moved
    back, with today's month and day (a day that the month does not
    have is carried into the next month). *)
Definition cutoffDay (h : Host) (years : Z) : Z :=
  dayNumber (YearFromTime (clock h) - years) (MonthFromTime (clock h))
            (DateFromTime (clock h)).
(* ================================================================== *)
(** * Properties *)

(** ** The calendar *)

Lemma isLeap_spec y :
  isLeap y = true <-> (y mod 4 = 0 /\ (y mod 100 <> 0 \/ y mod 400 = 0)).
Proof.
  unfold isLeap.
  rewrite andb_true_iff, orb_true_iff, negb_true_iff, !Z.eqb_eq, Z.eqb_neq.
  tauto.
Qed.

(** A year is as long as [DaysInYear] says. *)
Lemma DayFromYear_step y : DayFromYear (y + 1) = DayFromYear y + DaysInYear y.
Proof.
  unfold DayFromYear, DaysInYear.
  destruct (isLeap y) eqn:E.
  - apply isLeap_spec in E. Z.div_mod_to_equations. lia.
  - assert (H : ~ (y mod 4 = 0 /\ (y mod 100 <> 0 \/ y mod 400 = 0))).
    { rewrite <- isLeap_spec. congruence. }
    Z.div_mod_to_equations. lia.
Qed.

Lemma DayFromYear_mono y y' : y <= y' -> DayFromYear y <= DayFromYear y'.
Proof. unfold DayFromYear. intros. Z.div_mod_to_equations. lia. Qed.

(** [YearFromDay] meets its specification in ECMA-262: the year of a
    day is the one that has started and whose successor has not. *)
Lemma YearFromDay_bounds d :
  DayFromYear (YearFromDay d) <= d < DayFromYear (YearFromDay d + 1).
Proof.
  unfold YearFromDay.
  set (y0 := 1970 + d * 400 / 146097).
  assert (H1 : DayFromYear (y0 - 1) <= d).
  { unfold DayFromYear, y0. Z.div_mod_to_equations. lia. }
  assert (H2 : d < DayFromYear (y0 + 2)).
  { unfold DayFromYear, y0. Z.div_mod_to_equations. lia. }
  destruct (d <? DayFromYear y0) eqn:E1.
  - apply Z.ltb_lt in E1. replace (y0 - 1 + 1) with y0 by lia. lia.
  - apply Z.ltb_ge in E1.
    destruct (DayFromYear (y0 + 1) <=? d) eqn:E2.
    + apply Z.leb_le in E2. replace (y0 + 1 + 1) with (y0 + 2) by lia. lia.
    + apply Z.leb_gt in E2. lia.
Qed.

Lemma YearFromDay_unique d y :
  DayFromYear y <= d < DayFromYear (y + 1) -> YearFromDay d = y.
Proof.
  intros H. pose proof (YearFromDay_bounds d) as B.
  destruct (Z.lt_trichotomy (YearFromDay d) y) as [L | [E | G]]; auto.
  - pose proof (DayFromYear_mono (YearFromDay d + 1) y ltac:(lia)). lia.
  - pose proof (DayFromYear_mono (y + 1) (YearFromDay d) ltac:(lia)). lia.
Qed.

Lemma YearFromDay_ge d y : DayFromYear y <= d -> y <= YearFromDay d.
Proof.
  intros H. pose proof (YearFromDay_bounds d) as B.
  destruct (Z_le_gt_dec y (YearFromDay d)); auto.
  pose proof (DayFromYear_mono (YearFromDay d + 1) y ltac:(lia)). lia.
Qed.

Lemma leapDay_cases y :
  (isLeap y = true /\ leapDay y = 1) \/ (isLeap y = false /\ leapDay y = 0).
Proof. unfold leapDay. destruct (isLeap y); auto. Qed.

Lemma Day_midnight day : Day (day * msPerDay) = day.
Proof. unfold Day. apply Z.div_mul. discriminate. Qed.

(** The day within the year is in the year. *)
Lemma DayWithinYear_range t :
  0 <= DayWithinYear t < 365 + InLeapYear t.
Proof.
  unfold DayWithinYear, InLeapYear, leapDay, YearFromTime.
  pose proof (YearFromDay_bounds (Day t)) as B.
  rewrite DayFromYear_step in B. unfold DaysInYear in B.
  destruct (isLeap (YearFromDay (Day t))); lia.
Qed.

Lemma monthOfDay_bracket l dwy :
  0 <= l <= 1 -> 0 <= dwy < 365 + l ->
  0 <= monthOfDay l dwy <= 11
  /\ monthStart l (monthOfDay l dwy) <= dwy
       < monthStart l (monthOfDay l dwy + 1).
Proof.
  intros Hl Hd. unfold monthOfDay.
  assert (C : l = 0 \/ l = 1) by lia.
  destruct C; subst l;
  repeat match goal with
         | |- context [if ?a <? ?b then _ else _] =>
             destruct (Z.ltb_spec a b)
         end; cbn -[Z.le Z.lt]; lia.
Qed.

Lemma monthStart_next y mn :
  0 <= mn <= 11 ->
  monthStart (leapDay y) (mn + 1) = monthStart (leapDay y) mn + daysInMonth y mn.
Proof.
  intros H. unfold leapDay, daysInMonth.
  assert (C : mn = 0 \/ mn = 1 \/ mn = 2 \/ mn = 3 \/ mn = 4 \/ mn = 5 \/
              mn = 6 \/ mn = 7 \/ mn = 8 \/ mn = 9 \/ mn = 10 \/ mn = 11) by lia.
  destruct (isLeap y);
    repeat (destruct C as [-> | C]; [reflexivity |]); subst; reflexivity.
Qed.

(** Every time value falls on a real calendar date. *)
Lemma civil_real t :
  realDate (YearFromTime t) (MonthFromTime t) (DateFromTime t).
Proof.
  unfold realDate, DateFromTime, MonthFromTime.
  pose proof (DayWithinYear_range t) as R.
  assert (L : 0 <= InLeapYear t <= 1)
    by (unfold InLeapYear, leapDay; destruct (isLeap _); lia).
  destruct (monthOfDay_bracket _ _ L R) as [M B].
  split; [exact M |].
  assert (E : InLeapYear t = leapDay (YearFromTime t)) by reflexivity.
  rewrite E in *.
  rewrite monthStart_next in B by exact M. lia.
Qed.

Lemma monthStart_range l mn :
  0 <= l <= 1 -> 0 <= mn <= 11 ->
  0 <= monthStart l mn /\ monthStart l (mn + 1) <= 365 + l.
Proof.
  intros Hl H.
  assert (Cl : l = 0 \/ l = 1) by lia.
  assert (C : mn = 0 \/ mn = 1 \/ mn = 2 \/ mn = 3 \/ mn = 4 \/ mn = 5 \/
              mn = 6 \/ mn = 7 \/ mn = 8 \/ mn = 9 \/ mn = 10 \/ mn = 11) by lia.
  destruct Cl; subst l;
    repeat (destruct C as [-> | C]; [cbn -[Z.le Z.lt]; lia |]);
    subst; cbn -[Z.le Z.lt]; lia.
Qed.

Lemma monthStart_mono l a b :
  0 <= l <= 1 -> 0 <= a -> a < b -> b <= 12 ->
  monthStart l (a + 1) <= monthStart l b.
Proof.
  intros Hl Ha Hab Hb.
  assert (Cl : l = 0 \/ l = 1) by lia.
  assert (Ca : a = 0 \/ a = 1 \/ a = 2 \/ a = 3 \/ a = 4 \/ a = 5 \/
               a = 6 \/ a = 7 \/ a = 8 \/ a = 9 \/ a = 10 \/ a = 11) by lia.
  assert (Cb : b = 1 \/ b = 2 \/ b = 3 \/ b = 4 \/ b = 5 \/
               b = 6 \/ b = 7 \/ b = 8 \/ b = 9 \/ b = 10 \/ b = 11 \/ b = 12)
    by lia.
  destruct Cl; subst l;
    repeat (destruct Ca as [-> | Ca]);
    repeat (destruct Cb as [-> | Cb]); subst; cbn -[Z.le Z.lt]; lia.
Qed.

Lemma monthOfDay_unique l mn dwy :
  0 <= l <= 1 -> 0 <= mn <= 11 ->
  monthStart l mn <= dwy < monthStart l (mn + 1) ->
  monthOfDay l dwy = mn.
Proof.
  intros Hl Hm B.
  assert (R : 0 <= dwy < 365 + l).
  { pose proof (monthStart_range l mn Hl Hm). lia. }
  destruct (monthOfDay_bracket l dwy Hl R) as [M B'].
  destruct (Z.lt_trichotomy (monthOfDay l dwy) mn) as [L | [E | G]]; auto.
  - pose proof (monthStart_mono l (monthOfDay l dwy) mn Hl ltac:(lia) L ltac:(lia)).
    lia.
  - pose proof (monthStart_mono l mn (monthOfDay l dwy) Hl ltac:(lia) G ltac:(lia)).
    lia.
Qed.

Lemma dayNumber_real y mn d :
  0 <= mn <= 11 ->
  dayNumber y mn d = DayFromYear y + monthStart (leapDay y) mn + d - 1.
Proof.
  intros H. unfold dayNumber, leapDay.
  rewrite Z.div_small, Z.mod_small by lia.
  rewrite Z.add_0_r. reflexivity.
Qed.

(** The day number of a real date is a day of its year and month. *)
Lemma dayNumber_in_year y mn d :
  realDate y mn d ->
  DayFromYear y <= dayNumber y mn d < DayFromYear (y + 1)
  /\ monthStart (leapDay y) mn <= dayNumber y mn d - DayFromYear y
       < monthStart (leapDay y) (mn + 1).
Proof.
  intros [Hm Hd].
  rewrite dayNumber_real by exact Hm.
  assert (L : 0 <= leapDay y <= 1)
    by (unfold leapDay; destruct (isLeap y); lia).
  pose proof (monthStart_range _ _ L Hm) as R.
  pose proof (monthStart_next y mn Hm) as N.
  rewrite DayFromYear_step. unfold DaysInYear.
  unfold leapDay in *. destruct (isLeap y); lia.
Qed.

(** Reading back the date of the day number of a real date. *)
Lemma civil_dayNumber y mn d t :
  realDate y mn d -> Day t = dayNumber y mn d ->
  civil t = (y, mn, d).
Proof.
  intros R E. destruct (dayNumber_in_year y mn d R) as [By Bm].
  assert (Y : YearFromTime t = y).
  { unfold YearFromTime. rewrite E. apply YearFromDay_unique; exact By. }
  assert (L : 0 <= leapDay y <= 1)
    by (unfold leapDay; destruct (isLeap y); lia).
  assert (M : MonthFromTime t = mn).
  { unfold MonthFromTime, InLeapYear, DayWithinYear. rewrite Y, E.
    apply (monthOfDay_unique (leapDay y)); [exact L | apply R | exact Bm]. }
  unfold civil. rewrite Y, M. do 2 f_equal.
  unfold DateFromTime, InLeapYear, DayWithinYear. rewrite M, Y, E.
  destruct R as [Hm _]. rewrite (dayNumber_real y mn d Hm).
  unfold leapDay. lia.
Qed.

(** The day number of the date of a day is that day. *)
Lemma dayNumber_civil t :
  dayNumber (YearFromTime t) (MonthFromTime t) (DateFromTime t) = Day t.
Proof.
  destruct (civil_real t) as [Hm _].
  rewrite dayNumber_real by exact Hm.
  unfold DateFromTime, DayWithinYear.
  change (InLeapYear t) with (leapDay (YearFromTime t)). lia.
Qed.

(** Day numbers order real dates as the calendar does. *)
Lemma dayNumber_earlier y1 m1 d1 y2 m2 d2 :
  realDate y1 m1 d1 -> realDate y2 m2 d2 ->
  (earlier (y1, m1, d1) (y2, m2, d2)
   <-> dayNumber y1 m1 d1 < dayNumber y2 m2 d2).
Proof.
  intros R1 R2.
  assert (F : forall a b c a' b' c', realDate a b c -> realDate a' b' c' ->
              earlier (a, b, c) (a', b', c') ->
              dayNumber a b c < dayNumber a' b' c').
  { intros a b c a' b' c' Ra Rb H.
    destruct (dayNumber_in_year _ _ _ Ra) as [Ya Ma].
    destruct (dayNumber_in_year _ _ _ Rb) as [Yb Mb].
    destruct H as [H | [-> [H | [-> H]]]].
    - pose proof (DayFromYear_mono (a + 1) a' ltac:(lia)). lia.
    - assert (L : 0 <= leapDay a' <= 1)
        by (unfold leapDay; destruct (isLeap a'); lia).
      destruct Ra as [Ha _], Rb as [Hb _].
      pose proof (monthStart_mono (leapDay a') b b' L ltac:(lia) H ltac:(lia)).
      lia.
    - destruct Ra as [Ha _]. rewrite !dayNumber_real by exact Ha. lia. }
  split; [apply F; assumption |].
  intros H.
  destruct (Z.lt_trichotomy y1 y2) as [L | [E | G]]; [left; exact L | |].
  - subst y2. right. split; [reflexivity |].
    destruct (Z.lt_trichotomy m1 m2) as [L | [E | G]]; [left; exact L | |].
    + subst m2. right. split; [reflexivity |].
      destruct R1 as [Ha _]. rewrite !dayNumber_real in H by exact Ha. lia.
    + exfalso.
      assert (X : earlier (y1, m2, d2) (y1, m1, d1)) by (cbn -[Z.le Z.lt]; lia).
      apply F in X; [lia | assumption | assumption].
  - exfalso.
    assert (X : earlier (y2, m2, d2) (y1, m1, d1)) by (cbn -[Z.le Z.lt]; lia).
    apply F in X; [lia | assumption | assumption].
Qed.

(** ** Numbers *)

Lemma numEq_ofZ a b : numEq (ofZ a) (ofZ b) = (a =? b).
Proof.
  unfold numEq, ofZ, Qeq_bool, inject_Z. cbn [Qnum Qden].
  now rewrite !Z.mul_1_r.
Qed.

Lemma numSub_ofZ a b : numSub (ofZ a) (ofZ b) = ofZ (a - b).
Proof.
  unfold numSub, ofZ, inject_Z, Qminus, Qplus, Qopp. cbn [Qnum Qden Pos.mul].
  do 2 f_equal. lia.
Qed.

Lemma finiteTrunc_ofZ a : finiteTrunc (ofZ a) = Some a.
Proof. unfold finiteTrunc, ofZ, inject_Z. cbn [Qnum Qden]. now rewrite Z.quot_1_r. Qed.

Lemma falsy_ofZ a : falsy (Some (ofZ a)) = (a =? 0).
Proof.
  unfold falsy, ofZ, Qeq_bool, inject_Z. cbn [Qnum Qden].
  now rewrite Z.mul_1_r, Z.mul_0_l.
Qed.

Lemma MakeFullYear_ofZ y :
  MakeFullYear (ofZ y) = ofZ (if (0 <=? y) && (y <=? 99) then 1900 + y else y).
Proof.
  unfold MakeFullYear. rewrite finiteTrunc_ofZ.
  destruct ((0 <=? y) && (y <=? 99)); reflexivity.
Qed.

Lemma MakeDay_ofZ y mo d :
  MakeDay (ofZ y) (ofZ mo) (ofZ d) = Some (dayNumber y mo d).
Proof. unfold MakeDay. now rewrite !finiteTrunc_ofZ. Qed.

(** ** Digits *)

Lemma isDigit_cases c :
  isDigit c = true ->
  In c ["0"; "1"; "2"; "3"; "4"; "5"; "6"; "7"; "8"; "9"]%char.
Proof.
  destruct c as [[] [] [] [] [] [] [] []]; intros H;
    try discriminate H; cbn; tauto.
Qed.

Ltac digit_cases H :=
  apply isDigit_cases in H; cbn [In] in H;
  repeat (destruct H as [H | H]; [subst |]); [.. | contradiction].

Lemma digit_digitIn c : isDigit c = true -> digitIn 10 c = Some (code c - 48).
Proof. intros H. digit_cases H; reflexivity. Qed.

Lemma digit_not_space c : isDigit c = true -> isSpace c = false.
Proof. intros H. digit_cases H; reflexivity. Qed.

Lemma digit_not_dash c : isDigit c = true -> Ascii.eqb c "-" = false.
Proof. intros H. digit_cases H; reflexivity. Qed.

Lemma digit_range c : isDigit c = true -> 0 <= code c - 48 <= 9.
Proof. intros H. digit_cases H; cbv; split; discriminate. Qed.

Lemma readDigits_all s acc n :
  allDigits s = true ->
  readDigits 10 s acc n = (decimalFrom acc s, (n + String.length s)%nat, "").
Proof.
  revert acc n. induction s as [| c s IH]; intros acc n H;
    cbn [readDigits decimalFrom String.length].
  - now rewrite Nat.add_0_r.
  - cbn [allDigits] in H. apply andb_prop in H as [Hc Hs].
    rewrite (digit_digitIn c Hc), IH by exact Hs.
    now rewrite Nat.add_succ_r.
Qed.

Lemma trimRight_digits s : allDigits s = true -> trimRight s = s.
Proof.
  induction s as [| c s IH]; intros H; cbn [trimRight]; [reflexivity |].
  cbn [allDigits] in H. apply andb_prop in H as [Hc Hs].
  now rewrite (digit_not_space c Hc), IH.
Qed.

(** [Number] reads a string of digits as its decimal value. *)
Lemma Number_digits s :
  allDigits s = true -> s <> "" -> Number s = ofZ (decimal s).
Proof.
  intros H NE. destruct s as [| c s]; [contradiction |].
  pose proof H as H'. cbn [allDigits] in H'. apply andb_prop in H' as [Hc Hs].
  unfold Number.
  assert (T : trimLeft (String c s) = String c s)
    by (cbn [trimLeft]; now rewrite (digit_not_space c Hc)).
  rewrite T, (trimRight_digits _ H). cbn [String.eqb].
  assert (ND : nonDecimal (String c s) = None).
  { destruct s as [| p s]; [reflexivity |].
    cbn [allDigits] in Hs. apply andb_prop in Hs as [Hp _].
    unfold nonDecimal.
    assert (B : (if isOneOf "xX" p then Some 16
                 else if isOneOf "oO" p then Some 8
                 else if isOneOf "bB" p then Some 2 else None) = None)
      by (digit_cases Hp; reflexivity).
    rewrite B. destruct (Ascii.eqb c "0"); reflexivity. }
  rewrite ND.
  assert (SD : signedDecimal (String c s) = unsignedDecimal (String c s))
    by (digit_cases Hc; reflexivity).
  rewrite SD. unfold unsignedDecimal.
  assert (I : (String c s =? "Infinity")%string = false)
    by (digit_cases Hc; reflexivity).
  rewrite I, (readDigits_all _ 0 0%nat H).
  cbn [Nat.add String.length Nat.eqb andb Z.of_nat Z.pow Z.pow_pos
       Pos.iter Z.to_pos Z.mul Pos.mul].
  unfold ofZ, inject_Z, decimal. do 2 f_equal. lia.
Qed.

Lemma split_digits s : allDigits s = true -> split "-" s = [s].
Proof.
  induction s as [| c s IH]; intros H; cbn [split append];
    [reflexivity |].
  cbn [allDigits] in H. apply andb_prop in H as [Hc Hs].
  now rewrite (digit_not_dash c Hc), IH.
Qed.

Lemma split_digits_dash s rest :
  allDigits s = true ->
  split "-" (s ++ String "-" rest) = s :: split "-" rest.
Proof.
  induction s as [| c s IH]; intros H; cbn [split append];
    [reflexivity |].
  cbn [allDigits] in H. apply andb_prop in H as [Hc Hs].
  now rewrite (digit_not_dash c Hc), IH.
Qed.

Lemma length_nonempty s n : String.length s = S n -> s <> "".
Proof. destruct s; [discriminate | discriminate]. Qed.

(** The components of a date in the strict format. *)
Lemma components_isoShape s ys ms ds :
  isoShape s ys ms ds ->
  components s
  = (Some (ofZ (decimal ys)), Some (ofZ (decimal ms)), Some (ofZ (decimal ds))).
Proof.
  intros (-> & Ly & Lm & Ld & Dy & Dm & Dd).
  unfold components.
  change ("-" ++ ms ++ "-" ++ ds) with (String "-" (ms ++ String "-" ds)).
  rewrite (split_digits_dash _ _ Dy), (split_digits_dash _ _ Dm),
    (split_digits _ Dd).
  cbn [map nth_error].
  rewrite !Number_digits; eauto using length_nonempty.
Qed.

(** ** The strict date format *)

(** A pattern that starts with [^] matches at the first position only. *)
Lemma search_isoDate_later c s : RegExp.search RegExp.isoDate (Some c) s = false.
Proof.
  revert c. induction s as [| x s IH]; intros c; cbn; [reflexivity |].
  apply IH.
Qed.

Lemma isoShape_chars s ys ms ds :
  isoShape s ys ms ds <->
  exists a b c d e f g i,
    ys = String a (String b (String c (String d "")))
    /\ ms = String e (String f "") /\ ds = String g (String i "")
    /\ s = String a (String b (String c (String d (String "-"
             (String e (String f (String "-" (String g (String i "")))))))))
    /\ isDigit a = true /\ isDigit b = true /\ isDigit c = true
    /\ isDigit d = true /\ isDigit e = true /\ isDigit f = true
    /\ isDigit g = true /\ isDigit i = true.
Proof.
  split.
  - intros (-> & Ly & Lm & Ld & Dy & Dm & Dd).
    destruct ys as [| a [| b [| c [| d [| ? ?]]]]]; try discriminate Ly.
    destruct ms as [| e [| f [| ? ?]]]; try discriminate Lm.
    destruct ds as [| g [| i [| ? ?]]]; try discriminate Ld.
    cbn [allDigits] in *.
    repeat match goal with
           | H : _ && _ = true |- _ => apply andb_prop in H as [? H]
           end.
    exists a, b, c, d, e, f, g, i. repeat split; assumption.
  - intros (a & b & c & d & e & f & g & i & -> & -> & -> & -> & H).
    destruct H as (Ha & Hb & Hc & Hd & He & Hf & Hg & Hi).
    unfold isoShape. cbn [allDigits String.length append].
    rewrite Ha, Hb, Hc, Hd, He, Hf, Hg, Hi. repeat split; reflexivity.
Qed.

Ltac eat_digit H x :=
  match type of H with
  | context [match ?s with EmptyString => _ | String _ _ => _ end] =>
      destruct s as [| x s]; [discriminate H |];
      let D := fresh "D" x in
      destruct (isDigit x) eqn:D; [| discriminate H]
  end.

Ltac eat_dash H :=
  match type of H with
  | context [match ?s with EmptyString => _ | String _ _ => _ end] =>
      let x := fresh "x" in
      let E := fresh "E" in
      destruct s as [| x s]; [discriminate H |];
      cbn [RegExp.canonicalize andb] in H;
      destruct (Ascii.eqb x "-") eqn:E; [| discriminate H];
      apply Ascii.eqb_eq in E; subst x
  end.

(** [/^\d{4}-\d{2}-\d{2}$/] accepts exactly the strict format. *)
Lemma isoDate_test s :
  RegExp.test RegExp.isoDate (Some s) = true
  <-> exists ys ms ds, isoShape s ys ms ds.
Proof.
  unfold RegExp.test, ToString.
  split.
  - intros H.
    assert (H' : RegExp.m false (RegExp.pattern RegExp.isoDate) (None, s)
                   (fun _ => true) = true).
    { destruct s as [| x s]; cbn [RegExp.search] in H.
      - now rewrite orb_false_r in H.
      - now rewrite search_isoDate_later, orb_false_r in H. }
    clear H. cbn [RegExp.pattern RegExp.isoDate RegExp.times RegExp.m fst snd] in H'.
    eat_digit H' a. eat_digit H' b. eat_digit H' c. eat_digit H' d.
    eat_dash H'.
    eat_digit H' e. eat_digit H' f.
    eat_dash H'.
    eat_digit H' g. eat_digit H' i.
    destruct s; [| discriminate H'].
    exists (String a (String b (String c (String d "")))),
      (String e (String f "")), (String g (String i "")).
    apply isoShape_chars. exists a, b, c, d, e, f, g, i.
    repeat split; assumption.
  - intros (ys & ms & ds & H). apply isoShape_chars in H.
    destruct H as (a & b & c & d & e & f & g & i & _ & _ & _ & -> & H).
    destruct H as (Ha & Hb & Hc & Hd & He & Hf & Hg & Hi).
    cbn [RegExp.search RegExp.pattern RegExp.isoDate RegExp.times RegExp.m
         RegExp.ignoreCase fst snd RegExp.canonicalize andb].
    rewrite Ha, Hb, Hc, Hd, He, Hf, Hg, Hi. reflexivity.
Qed.

(** ** [isValidDate] *)

Section DateRoundTrip.

Variable h : Host.

Lemma local_of_utc t : LocalTime h (UTC h t) = t.
Proof. unfold LocalTime, UTC. lia. Qed.

Lemma readsBack_roundTrips y mo d :
  readsBack h y mo d = true <-> roundTrips h y mo d.
Proof.
  unfold readsBack, roundTrips.
  destruct (newDateLocal h (ofZ y) (ofZ (mo - 1)) (ofZ d)) as [t |].
  - rewrite !andb_true_iff, !Z.eqb_eq. split.
    + intros [[A B] C]. exists t. auto.
    + intros (t' & E & A & B & C). injection E as <-. auto.
  - split; [discriminate |]. intros (t' & E & _). discriminate E.
Qed.

Lemma isValidDate_isoShape s ys ms ds :
  isoShape s ys ms ds ->
  isValidDate h (Some s) = Ret (readsBack h (decimal ys) (decimal ms) (decimal ds)).
Proof.
  intros S. unfold isValidDate.
  assert (T : RegExp.test RegExp.isoDate (Some s) = true)
    by (apply isoDate_test; eauto).
  rewrite T. cbn [negb].
  rewrite (components_isoShape _ _ _ _ S). cbn [ToNumber].
  rewrite numSub_ofZ. unfold readsBack.
  destruct (newDateLocal h (ofZ (decimal ys)) (ofZ (decimal ms - 1))
              (ofZ (decimal ds))) as [t |];
    cbn [isNaNDate negb andb getFullYear getMonth getDate strictEq];
    [| reflexivity].
  now rewrite !numEq_ofZ.
Qed.

Lemma isValidDate_other s :
  (forall ys ms ds, ~ isoShape s ys ms ds) ->
  isValidDate h (Some s) = Ret false.
Proof.
  intros N. unfold isValidDate.
  destruct (RegExp.test RegExp.isoDate (Some s)) eqn:T; [| reflexivity].
  apply isoDate_test in T. destruct T as (ys & ms & ds & S).
  elim (N _ _ _ S).
Qed.

End DateRoundTrip.

(** ** Round trips and the calendar *)

Lemma newDateLocal_ofZ h y mo d :
  newDateLocal h (ofZ y) (ofZ mo) (ofZ d)
  = TimeClip (Some (UTC h (midnight
      (if (0 <=? y) && (y <=? 99) then 1900 + y else y) mo d))).
Proof.
  unfold newDateLocal. rewrite MakeFullYear_ofZ, MakeDay_ofZ. reflexivity.
Qed.

Lemma TimeClip_Some x t : TimeClip (Some x) = Some t -> t = x.
Proof.
  unfold TimeClip. destruct (8640000000000000 <? Z.abs x); congruence.
Qed.

Lemma TimeClip_in_range x :
  Z.abs x <= 8640000000000000 -> TimeClip (Some x) = Some x.
Proof.
  intros H. unfold TimeClip.
  destruct (Z.ltb_spec 8640000000000000 (Z.abs x)); [lia | reflexivity].
Qed.

Lemma dayNumber_lower y mo d :
  -1 <= mo -> 0 <= d -> DayFromYear (y - 1) <= dayNumber y mo d.
Proof.
  intros Hm Hd. unfold dayNumber.
  assert (Q : -1 <= mo / 12) by (Z.div_mod_to_equations; lia).
  assert (R : 0 <= mo mod 12 <= 11) by (Z.div_mod_to_equations; lia).
  set (ym := y + mo / 12) in *.
  assert (L : 0 <= leapDay ym <= 1)
    by (unfold leapDay; destruct (isLeap ym); lia).
  pose proof (monthStart_range _ _ L R) as [S0 _].
  destruct (Z.eq_dec (mo / 12) (-1)) as [E | N].
  - assert (M : mo mod 12 = 11) by (Z.div_mod_to_equations; lia).
    rewrite M. replace ym with (y - 1) by (unfold ym; lia).
    destruct (leapDay_cases (y - 1)) as [[_ ->] | [_ ->]];
      cbn -[Z.le Z.lt DayFromYear]; lia.
  - pose proof (DayFromYear_mono y ym ltac:(unfold ym; lia)).
    pose proof (DayFromYear_step (y - 1)) as St.
    replace (y - 1 + 1) with y in St by lia.
    unfold DaysInYear in St. destruct (isLeap (y - 1)); lia.
Qed.

(** What a successful round trip says in calendar terms: the year is
    not one that the constructor reads as 19xx, and the month and day
    exist. *)
Lemma readsBack_real h y mo d :
  0 <= y -> 0 <= mo -> 0 <= d ->
  readsBack h y mo d = true -> 100 <= y /\ realDate y (mo - 1) d.
Proof.
  intros Hy Hm Hd H. unfold readsBack in H.
  rewrite newDateLocal_ofZ in H.
  destruct (TimeClip _) as [t |] eqn:E; [| discriminate H].
  apply TimeClip_Some in E. subst t. rewrite local_of_utc in H.
  apply andb_prop in H as [H D]. apply andb_prop in H as [Y M].
  apply Z.eqb_eq in Y, M, D.
  destruct (Z.leb_spec y 99) as [Le | Gt].
  - exfalso. replace (0 <=? y) with true in Y by (symmetry; now apply Z.leb_le).
    cbn [andb] in Y. unfold YearFromTime, midnight in Y.
    rewrite Day_midnight in Y.
    pose proof (dayNumber_lower (1900 + y) (mo - 1) d ltac:(lia) Hd) as B.
    pose proof (DayFromYear_mono 1899 (1900 + y - 1) ltac:(lia)) as B'.
    pose proof (YearFromDay_ge (dayNumber (1900 + y) (mo - 1) d) 1899
                  ltac:(lia)).
    lia.
  - split; [lia |]. rewrite andb_false_r in Y, M, D.
    pose proof (civil_real (midnight y (mo - 1) d)) as R.
    now rewrite Y, M, D in R.
Qed.

Lemma DayFromYear_range y :
  100 <= y <= 9999 -> -683003 <= DayFromYear y /\ DayFromYear (y + 1) <= 2932897.
Proof.
  intros H. split.
  - pose proof (DayFromYear_mono 100 y ltac:(lia)) as B.
    change (DayFromYear 100) with (-683003) in B. lia.
  - pose proof (DayFromYear_mono (y + 1) 10000 ltac:(lia)) as B.
    change (DayFromYear 10000) with 2932897 in B. lia.
Qed.

Lemma real_readsBack h y mo d :
  zoneInRange h -> 100 <= y <= 9999 -> realDate y (mo - 1) d ->
  readsBack h y mo d = true.
Proof.
  intros Hz Hy R. unfold readsBack. rewrite newDateLocal_ofZ.
  replace (y <=? 99) with false by (symmetry; apply Z.leb_gt; lia).
  rewrite andb_false_r.
  destruct (dayNumber_in_year _ _ _ R) as [B _].
  pose proof (DayFromYear_range y Hy) as Rg.
  rewrite TimeClip_in_range.
  - rewrite local_of_utc.
    assert (C : civil (midnight y (mo - 1) d) = (y, mo - 1, d)).
    { apply civil_dayNumber; [exact R |]. unfold midnight. apply Day_midnight. }
    unfold civil in C. injection C as -> -> ->.
    now rewrite !Z.eqb_refl.
  - unfold zoneInRange in Hz. unfold UTC, midnight, msPerDay in *. lia.
Qed.

Lemma decimal4 a b c d :
  isDigit a = true -> isDigit b = true -> isDigit c = true -> isDigit d = true ->
  decimal (String a (String b (String c (String d ""))))
  = 1000 * (code a - 48) + 100 * (code b - 48) + 10 * (code c - 48)
    + (code d - 48)
  /\ 0 <= decimal (String a (String b (String c (String d "")))) <= 9999.
Proof.
  intros Ha Hb Hc Hd.
  pose proof (digit_range a Ha). pose proof (digit_range b Hb).
  pose proof (digit_range c Hc). pose proof (digit_range d Hd).
  unfold decimal. cbn [decimalFrom]. lia.
Qed.

Lemma decimal2 a b :
  isDigit a = true -> isDigit b = true ->
  0 <= decimal (String a (String b "")) <= 99.
Proof.
  intros Ha Hb.
  pose proof (digit_range a Ha). pose proof (digit_range b Hb).
  unfold decimal. cbn [decimalFrom]. lia.
Qed.

Lemma isoShape_ranges s ys ms ds :
  isoShape s ys ms ds ->
  0 <= decimal ys <= 9999 /\ 0 <= decimal ms <= 99 /\ 0 <= decimal ds <= 99.
Proof.
  intros S. apply isoShape_chars in S.
  destruct S as (a & b & c & d & e & f & g & i & -> & -> & -> & _ & H).
  destruct H as (Ha & Hb & Hc & Hd & He & Hf & Hg & Hi).
  repeat split; try apply decimal4; try apply decimal2; assumption.
Qed.

(** A date in the strict format is accepted exactly when its year is
    at least 100 and its month and day exist. *)
Lemma isValidDate_calendar h s ys ms ds :
  zoneInRange h -> isoShape s ys ms ds ->
  (isValidDate h (Some s) = Ret true
   <-> 100 <= decimal ys /\ realDate (decimal ys) (decimal ms - 1) (decimal ds)).
Proof.
  intros Hz S. rewrite (isValidDate_isoShape h _ _ _ _ S).
  destruct (isoShape_ranges _ _ _ _ S) as (Ry & Rm & Rd).
  split.
  - intros E. injection E as E. apply (readsBack_real h); lia || exact E.
  - intros [Hy R]. f_equal. apply real_readsBack; [exact Hz | lia | exact R].
Qed.

Lemma realDate_dec y mn d :
  realDate y mn d
  <-> ((0 <=? mn) && (mn <=? 11) && (1 <=? d) && (d <=? daysInMonth y mn)) = true.
Proof.
  unfold realDate. rewrite !andb_true_iff, !Z.leb_le. tauto.
Qed.

Lemma isValidDate_decide h s ys ms ds :
  zoneInRange h -> isoShape s ys ms ds ->
  isValidDate h (Some s)
  = Ret ((100 <=? decimal ys)
         && ((0 <=? decimal ms - 1) && (decimal ms - 1 <=? 11)
             && (1 <=? decimal ds)
             && (decimal ds <=? daysInMonth (decimal ys) (decimal ms - 1)))).
Proof.
  intros Hz S. pose proof (isValidDate_calendar h _ _ _ _ Hz S) as C.
  rewrite realDate_dec, <- Z.leb_le, <- andb_true_iff in C.
  rewrite (isValidDate_isoShape h _ _ _ _ S) in *.
  f_equal. apply eq_true_iff_eq. rewrite <- C.
  split; [intros -> | intros E; injection E]; auto.
Qed.

Lemma isoShape_intro ys ms ds :
  String.length ys = 4%nat -> String.length ms = 2%nat ->
  String.length ds = 2%nat ->
  allDigits ys = true -> allDigits ms = true -> allDigits ds = true ->
  isoShape (ys ++ "-" ++ ms ++ "-" ++ ds) ys ms ds.
Proof. unfold isoShape. auto 10. Qed.

(** C3. [isValidDate] accepts a string exactly when it is 4 digits, a
    dash, 2 digits, a dash, 2 digits, and the local date built from the
    three numbers reads back as the same year, month and day.  So
    2023-02-29, 2023-13-01 and 2023-04-31 are rejected and 2024-02-29 is
    accepted. *)
Theorem isValidDate_strict_round_trip (h : Host) :
  zoneInRange h ->
  (forall s,
     isValidDate h (Some s) = Ret true
     <-> exists ys ms ds,
           isoShape s ys ms ds
           /\ roundTrips h (decimal ys) (decimal ms) (decimal ds))
  /\ isValidDate h (Some "2023-02-29") = Ret false
  /\ isValidDate h (Some "2024-02-29") = Ret true
  /\ isValidDate h (Some "2023-13-01") = Ret false
  /\ isValidDate h (Some "2023-04-31") = Ret false.
Proof.
  intros Hz. split.
  - intros s. split.
    + intros E.
      destruct (RegExp.test RegExp.isoDate (Some s)) eqn:T.
      * apply isoDate_test in T. destruct T as (ys & ms & ds & S).
        exists ys, ms, ds. split; [exact S |].
        rewrite (isValidDate_isoShape h _ _ _ _ S) in E.
        injection E as E. now apply readsBack_roundTrips.
      * unfold isValidDate in E. rewrite T in E. discriminate E.
    + intros (ys & ms & ds & S & R).
      rewrite (isValidDate_isoShape h _ _ _ _ S). f_equal.
      now apply readsBack_roundTrips.
  - repeat split.
    + now rewrite (isValidDate_decide h _ "2023" "02" "29" Hz)
        by (apply (isoShape_intro "2023" "02" "29"); reflexivity).
    + now rewrite (isValidDate_decide h _ "2024" "02" "29" Hz)
        by (apply (isoShape_intro "2024" "02" "29"); reflexivity).
    + now rewrite (isValidDate_decide h _ "2023" "13" "01" Hz)
        by (apply (isoShape_intro "2023" "13" "01"); reflexivity).
    + now rewrite (isValidDate_decide h _ "2023" "04" "31" Hz)
        by (apply (isoShape_intro "2023" "04" "31"); reflexivity).
Qed.

Lemma isValidDate_strict_round_trip_witness :
  zoneInRange host20240615
  /\ isValidDate host20240615 (Some "2024-02-29") = Ret true.
Proof.
  assert (Hz : zoneInRange host20240615)
    by (unfold zoneInRange, msPerDay; cbn; lia).
  split; [exact Hz |].
  exact (proj1 (proj2 (proj2 (isValidDate_strict_round_trip host20240615 Hz)))).
Defined.



(** ** The rule table *)

Section RuleTable.

Variables (h : Host) (re : RegExp.t).

Let cv := newCharacterValidator re.

Lemma forIn_validators : forIn (validators cv) = fieldOrder.
Proof. reflexivity. Qed.

Lemma fieldOrder_own f :
  In f fieldOrder -> hasOwnProperty (validators cv) f = true.
Proof.
  cbn [In fieldOrder]. intros H.
  repeat (destruct H as [<- | H]; [reflexivity |]). contradiction.
Qed.

Lemma validateField_firstname v :
  validateField h cv "firstname" v
  = nameRules re "firstname" "firstname_too_short" "firstname_too_long" v.
Proof. destruct v; reflexivity. Qed.

Lemma validateField_lastname v :
  validateField h cv "lastname" v
  = nameRules re "lastname" "lastname_too_short" "lastname_too_long" v.
Proof. destruct v; reflexivity. Qed.

Lemma validateField_nationality v :
  validateField h cv "nationality" v
  = if negb (truthy v) then Ret (Invalid "nationality" "forgotten_field")
    else if negb (negb (RegExp.test re v))
         then Ret (Invalid "nationality" "profanity")
         else Ret Valid.
Proof. reflexivity. Qed.

Lemma validateField_gender v :
  validateField h cv "gender" v
  = if negb (truthy v) then Ret (Invalid "gender" "forgotten_field")
    else Ret Valid.
Proof. reflexivity. Qed.

Lemma validateField_date v :
  validateField h cv "date" v
  = if negb (truthy v) then Ret (Invalid "date" "forgotten_field")
    else ok <- isValidDate h v ;;
         if negb ok then Ret (Invalid "date" "invalid_date")
         else if negb (negb (isTooYoung h v 8))
              then Ret (Invalid "date" "age_too_young")
              else if negb (negb (isTooOld h v 100))
                   then Ret (Invalid "date" "age_too_old")
                   else Ret Valid.
Proof. reflexivity. Qed.

(** A name that is neither in the table nor on [Object.prototype]
    passes. *)
Lemma validateField_unknown f v :
  ~ In f fieldOrder -> ~ In f objectPrototypeNames ->
  validateField h cv f v = Ret Valid.
Proof.
  intros NF NP. unfold validateField, getProperty.
  assert (A : assoc f (validators cv) = None).
  { cbn [validators cv newCharacterValidator assoc].
    cbn [In fieldOrder] in NF.
    repeat match goal with
           | |- context [(f =? ?k)%string] =>
               destruct (String.eqb_spec f k); [subst; tauto |]
           end.
    reflexivity. }
  rewrite A.
  assert (B : existsb (String.eqb f) objectPrototypeNames = false).
  { destruct (existsb _ _) eqn:E; [| reflexivity].
    apply existsb_exists in E. destruct E as (k & I & E).
    apply String.eqb_eq in E. subst k. contradiction. }
  now rewrite B.
Qed.

Lemma truthy_true v : truthy v = true -> exists s, v = Some s /\ s <> "".
Proof.
  destruct v as [s |]; [| discriminate]. cbn. intros H. exists s.
  split; [reflexivity |]. intros ->. discriminate H.
Qed.

Lemma isValidDate_returns v : exists b, isValidDate h v = Ret b.
Proof.
  unfold isValidDate.
  destruct (RegExp.test RegExp.isoDate v) eqn:T; cbn [negb]; [| eauto].
  destruct v as [s |]; [| discriminate T].
  destruct (components s) as [[y mo] d]. eauto.
Qed.

Lemma nameRules_returns f short long v :
  exists r, nameRules re f short long v = Ret r.
Proof.
  unfold nameRules. destruct (truthy v) eqn:T; cbn [negb]; [| eauto].
  apply truthy_true in T as (s & -> & _). cbn [jsLength bind].
  repeat match goal with
         | |- context [if ?b then _ else _] => destruct b
         end; eauto.
Qed.

(** On a field of the table, [validateField] returns. *)
Lemma validateField_returns f v :
  In f fieldOrder -> exists r, validateField h cv f v = Ret r.
Proof.
  cbn [In fieldOrder]. intros H.
  repeat (destruct H as [<- | H]); try contradiction.
  - rewrite validateField_firstname. apply nameRules_returns.
  - rewrite validateField_lastname. apply nameRules_returns.
  - rewrite validateField_nationality.
    repeat match goal with
           | |- context [if ?b then _ else _] => destruct b
           end; eauto.
  - rewrite validateField_gender. destruct (negb _); eauto.
  - rewrite validateField_date. destruct (negb (truthy v)); [eauto |].
    destruct (isValidDate_returns v) as [b ->]. cbn [bind].
    repeat match goal with
           | |- context [if ?b then _ else _] => destruct b
           end; eauto.
Qed.

(** An empty or absent value of a field of the table is reported as
    forgotten. *)
Lemma validateField_forgotten f v :
  In f fieldOrder -> truthy v = false ->
  validateField h cv f v = Ret (Invalid f "forgotten_field").
Proof.
  cbn [In fieldOrder]. intros H T.
  repeat (destruct H as [<- | H]); try contradiction.
  - rewrite validateField_firstname. unfold nameRules. now rewrite T.
  - rewrite validateField_lastname. unfold nameRules. now rewrite T.
  - rewrite validateField_nationality. now rewrite T.
  - rewrite validateField_gender. now rewrite T.
  - rewrite validateField_date. now rewrite T.
Qed.

End RuleTable.

Lemma firstFailure_field h f rules v g msg :
  firstFailure h f rules v = Ret (Invalid g msg) -> g = f.
Proof.
  induction rules as [| r rules IH]; cbn [firstFailure]; [discriminate |].
  destruct (test r h v) as [[] | e]; cbn [bind negb]; [exact IH | |].
  - intros E. now injection E.
  - discriminate.
Qed.

Lemma validateField_field h cv f v g msg :
  validateField h cv f v = Ret (Invalid g msg) -> g = f.
Proof.
  unfold validateField.
  destruct (getProperty (validators cv) f); try discriminate.
  apply firstFailure_field.
Qed.

(** ** The loop over the fields *)

Section FieldLoop.

Variables (h : Host) (cv : CharacterValidator) (character : Character).

Let check (f : string) := validateField h cv f (getField character f).

Lemma validateFields_all_valid fields :
  (forall f, In f fields -> check f = Ret Valid) ->
  validateFields h cv fields character = Ret Valid.
Proof.
  induction fields as [| f fields IH]; intros A; cbn [validateFields];
    [reflexivity |].
  destruct (hasOwnProperty (validators cv) f).
  - fold (check f). rewrite (A f (or_introl eq_refl)). cbn [bind isValid negb].
    apply IH. intros g I. apply A. now right.
  - apply IH. intros g I. apply A. now right.
Qed.

Lemma validateFields_returns fields :
  (forall f, In f fields -> exists r, check f = Ret r) ->
  exists r, validateFields h cv fields character = Ret r.
Proof.
  induction fields as [| f fields IH]; intros R; cbn [validateFields];
    [eauto |].
  assert (R' : forall g, In g fields -> exists r, check g = Ret r)
    by (intros g G; apply R; now right).
  destruct (hasOwnProperty (validators cv) f); [| auto].
  fold (check f). destruct (R f (or_introl eq_refl)) as [r ->]. cbn [bind].
  destruct (negb (isValid r)); eauto.
Qed.

Lemma validateFields_first before f after r :
  (forall g, In g (before ++ f :: after)%list ->
             hasOwnProperty (validators cv) g = true) ->
  (forall g, In g before -> check g = Ret Valid) ->
  check f = Ret r -> isValid r = false ->
  validateFields h cv (before ++ f :: after)%list character = Ret r.
Proof.
  intros O. induction before as [| b before IH]; intros A E I;
    cbn [app validateFields].
  - rewrite (O f) by (apply in_or_app; right; now left).
    fold (check f). rewrite E. cbn [bind]. now rewrite I.
  - rewrite (O b) by now left.
    fold (check b). rewrite (A b (or_introl eq_refl)). cbn [bind isValid negb].
    apply IH.
    + intros g G. apply O. now right.
    + intros g G. apply A. now right.
    + exact E.
    + exact I.
Qed.

Lemma validateFields_inv fields r :
  (forall g, In g fields -> hasOwnProperty (validators cv) g = true) ->
  validateFields h cv fields character = Ret r ->
  (r = Valid /\ forall f, In f fields -> check f = Ret Valid)
  \/ (exists before f after,
        fields = (before ++ f :: after)%list
        /\ (forall g, In g before -> check g = Ret Valid)
        /\ check f = Ret r /\ isValid r = false).
Proof.
  induction fields as [| f fields IH]; intros O E; cbn [validateFields] in E.
  - left. split; [congruence |]. intros f [].
  - rewrite (O f (or_introl eq_refl)) in E. fold (check f) in E.
    destruct (check f) as [[| g msg] | e] eqn:C; cbn [bind isValid negb] in E.
    + destruct (IH (fun x X => O x (or_intror X)) E)
        as [[-> A] | (before & f' & after & -> & A & C' & I)].
      * left. split; [reflexivity |]. intros x [<- | X]; auto.
      * right. exists (f :: before), f', after.
        split; [reflexivity |]. split; [| auto].
        intros x [<- | X]; auto.
    + right. exists [], f, fields. injection E as <-.
      split; [reflexivity |]. split; [intros x [] | auto].
    + discriminate E.
Qed.

End FieldLoop.

(** Reading a field does not depend on the order of the record's keys. *)
Lemma assoc_In {A} (l : list (string * A)) k a :
  NoDup (map fst l) -> (assoc k l = Some a <-> In (k, a) l).
Proof.
  induction l as [| [k' a'] l IH]; intros N; cbn [assoc In map fst] in *.
  - split; [discriminate | contradiction].
  - inversion N as [| ? ? NI N']; subst.
    destruct (String.eqb_spec k k') as [-> | NE].
    + split.
      * intros E. injection E as <-. now left.
      * intros [E | I]; [now injection E as <- |].
        exfalso. apply NI. apply (in_map fst) in I. exact I.
    + rewrite (IH N'). split; [now right |].
      intros [E | I]; [injection E as <- <-; contradiction | exact I].
Qed.

Lemma getField_permutation (c c' : Character) f :
  NoDup (map fst c) -> Permutation c c' ->
  getField c' f = getField c f.
Proof.
  intros N P. unfold getField.
  assert (N' : NoDup (map fst c')).
  { eapply Permutation_NoDup; [| exact N].
    now apply Permutation_map. }
  destruct (assoc f c) as [a |] eqn:E.
  - apply (assoc_In _ _ _ N) in E. apply (assoc_In _ _ _ N').
    eapply Permutation_in; eassumption.
  - destruct (assoc f c') as [a |] eqn:E'; [| reflexivity].
    apply (assoc_In _ _ _ N') in E'.
    apply Permutation_sym in P.
    apply (Permutation_in _ P) in E'.
    apply (assoc_In _ _ _ N) in E'. congruence.
Qed.

Lemma validateFields_ext h cv fields (c c' : Character) :
  (forall f, getField c' f = getField c f) ->
  validateFields h cv fields c' = validateFields h cv fields c.
Proof.
  intros X. induction fields as [| f fields IH]; cbn [validateFields];
    [reflexivity |].
  now rewrite X, IH.
Qed.

(** ** Claims on the rule engine *)

(** C2. [validateCharacter] visits the fields in the order of the rule
    table (firstname, lastname, nationality, gender, date), whatever the
    order of the keys of the record, and returns the first result that
    is not valid; it returns valid exactly when the five fields pass.
    A record with an empty first name is reported as a forgotten first
    name, whatever its date. *)
Theorem validateCharacter_field_order (h : Host) (re : RegExp.t)
  (character : Character) :
  let cv := newCharacterValidator re in
  let check f := validateField h cv f (getField character f) in
  forIn (validators cv) = fieldOrder
  /\ (validateCharacter h cv character = Ret Valid
      <-> forall f, In f fieldOrder -> check f = Ret Valid)
  /\ (forall f msg,
        validateCharacter h cv character = Ret (Invalid f msg)
        <-> exists before after,
              fieldOrder = (before ++ f :: after)%list
              /\ (forall g, In g before -> check g = Ret Valid)
              /\ check f = Ret (Invalid f msg))
  /\ (forall character',
        NoDup (map fst character) -> Permutation character character' ->
        validateCharacter h cv character' = validateCharacter h cv character)
  /\ (truthy (getField character "firstname") = false ->
      validateCharacter h cv character
      = Ret (Invalid "firstname" "forgotten_field")).
Proof.
  intros cv check.
  assert (O : forall g, In g fieldOrder ->
                        hasOwnProperty (validators cv) g = true)
    by apply fieldOrder_own.
  unfold validateCharacter. change (forIn (validators cv)) with fieldOrder.
  split; [reflexivity |]. split; [| split; [| split]].
  - split.
    + intros E. apply validateFields_inv in E; [| exact O].
      destruct E as [[_ A] | (b & f & a & _ & _ & _ & I)];
        [exact A | discriminate I].
    + apply validateFields_all_valid.
  - intros f msg. split.
    + intros E. apply validateFields_inv in E; [| exact O].
      destruct E as [[E _] | (b & g & a & F & A & C & _)]; [discriminate E |].
      pose proof (validateField_field _ _ _ _ _ _ C) as <-.
      exists b, a. auto.
    + intros (b & a & F & A & C). rewrite F.
      apply validateFields_first; auto.
      rewrite <- F. exact O.
  - intros character' N P. apply validateFields_ext.
    intros f. now apply getField_permutation.
  - intros T.
    apply (validateFields_first h cv character [] "firstname"
             ["lastname"; "nationality"; "gender"; "date"]).
    + exact O.
    + intros g [].
    + apply validateField_forgotten; [now left | exact T].
    + reflexivity.
Qed.

Lemma validateCharacter_field_order_witness :
  validateCharacter host20240615 (newCharacterValidator RegExp.emptyOnly)
    [("date", "31/12/1999"); ("firstname", "")]
  = Ret (Invalid "firstname" "forgotten_field").
Proof.
  apply (validateCharacter_field_order host20240615 RegExp.emptyOnly
           [("date", "31/12/1999"); ("firstname", "")]).
  reflexivity.
Defined.

(** C5. A non-empty date that [isValidDate] rejects is reported as
    invalid_date, not with an age code. *)
Theorem invalid_date_before_age_rules (h : Host) (re : RegExp.t) (s : string) :
  s <> "" -> isValidDate h (Some s) = Ret false ->
  validateField h (newCharacterValidator re) "date" (Some s)
  = Ret (Invalid "date" "invalid_date").
Proof.
  intros NE E. rewrite validateField_date.
  assert (T : truthy (Some s) = true).
  { cbn [truthy]. destruct (String.eqb_spec s ""); [contradiction | reflexivity]. }
  rewrite T, E. reflexivity.
Qed.

Lemma invalid_date_before_age_rules_witness :
  validateField host20240615 (newCharacterValidator RegExp.emptyOnly)
    "date" (Some "2023-02-30")
  = Ret (Invalid "date" "invalid_date").
Proof.
  apply invalid_date_before_age_rules.
  - discriminate.
  - vm_compute. reflexivity.
Defined.

(** C8, at the input where it fails.  The rule table has no rules for
    [constructor], yet [validateField] does not return valid for it:
    the lookup finds the function inherited from [Object.prototype],
    which the loop over the rules cannot iterate. *)
Theorem validateField_inherited_name_throws (h : Host) (re : RegExp.t)
  (v : value) :
  hasOwnProperty (validators (newCharacterValidator re)) "constructor" = false
  /\ validateField h (newCharacterValidator re) "constructor" v
     = Throw TypeError.
Proof. split; reflexivity. Qed.

(** C9. On a record whose fields are strings or absent,
    [validateCharacter] returns a result; so does [validateField] on
    every field of the table, with any value, and on every other name
    that is not a property of [Object.prototype]; and an absent or
    empty value is reported as forgotten, before a rule reads its
    length. *)
Theorem validation_returns (h : Host) (re : RegExp.t) :
  let cv := newCharacterValidator re in
  (forall character : Character,
     exists r, validateCharacter h cv character = Ret r)
  /\ (forall f v, In f fieldOrder -> exists r, validateField h cv f v = Ret r)
  /\ (forall f v, ~ In f objectPrototypeNames ->
        exists r, validateField h cv f v = Ret r)
  /\ (forall f v, In f fieldOrder -> truthy v = false ->
        validateField h cv f v = Ret (Invalid f "forgotten_field")).
Proof.
  intros cv. split; [| split; [| split]].
  - intros character. apply validateFields_returns.
    intros f I. now apply validateField_returns.
  - intros f v. apply validateField_returns.
  - intros f v NP. destruct (in_dec string_dec f fieldOrder) as [I | NI].
    + now apply validateField_returns.
    + exists Valid. now apply validateField_unknown.
  - intros f v. apply validateField_forgotten.
Qed.

Lemma validation_returns_witness :
  validateField host20240615 (newCharacterValidator RegExp.emptyOnly)
    "lastname" None
  = Ret (Invalid "lastname" "forgotten_field").
Proof.
  apply (validation_returns host20240615 RegExp.emptyOnly).
  - cbn. tauto.
  - reflexivity.
Defined.

(** [/^$/] matches the empty string and nothing else. *)
Lemma search_emptyOnly_later c s :
  RegExp.search RegExp.emptyOnly (Some c) s = false.
Proof.
  revert c. induction s as [| x s IH]; intros c; cbn; [reflexivity |].
  apply IH.
Qed.

Lemma emptyOnly_test v : truthy v = true -> RegExp.test RegExp.emptyOnly v = false.
Proof.
  intros T. apply truthy_true in T as (s & -> & NE).
  destruct s as [| c s]; [contradiction |].
  unfold RegExp.test, ToString. cbn [RegExp.search].
  rewrite search_emptyOnly_later. reflexivity.
Qed.

(** C7. Without a list of forbidden terms the validator is still
    built, an error line is written, and no call of [validateField]
    reports profanity, whatever the field name and the value. *)
Theorem fallback_never_flags_profanity :
  (exists init, initializeValidator None = Some init)
  /\ forall init,
       initializeValidator None = Some init ->
       consoleErrors init
       = ["Profanity list not found. Validation may not work correctly."]
       /\ forall (h : Host) (fieldName : string) (v : value) (field : string),
            validateField h (characterValidator init) fieldName v
            <> Ret (Invalid field "profanity").
Proof.
  split; [eexists; reflexivity |].
  intros init E. cbn [initializeValidator] in E. injection E as <-.
  split; [reflexivity |].
  cbn [characterValidator]. intros h fieldName v field.
  destruct (in_dec string_dec fieldName fieldOrder) as [I | NI].
  - cbn [In fieldOrder] in I.
    repeat (destruct I as [<- | I]); try contradiction.
    + rewrite validateField_firstname. unfold nameRules.
      destruct (truthy v) eqn:T; cbn [negb]; [| discriminate].
      rewrite (emptyOnly_test v T).
      destruct (jsLength v) as [n |]; cbn [bind negb]; [| discriminate].
      destruct (2 <=? n); [| discriminate].
      destruct (n <=? 16); discriminate.
    + rewrite validateField_lastname. unfold nameRules.
      destruct (truthy v) eqn:T; cbn [negb]; [| discriminate].
      rewrite (emptyOnly_test v T).
      destruct (jsLength v) as [n |]; cbn [bind negb]; [| discriminate].
      destruct (2 <=? n); [| discriminate].
      destruct (n <=? 16); discriminate.
    + rewrite validateField_nationality.
      destruct (truthy v) eqn:T; cbn [negb]; [| discriminate].
      rewrite (emptyOnly_test v T). discriminate.
    + rewrite validateField_gender. destruct (negb (truthy v)); discriminate.
    + rewrite validateField_date. destruct (negb (truthy v)); [discriminate |].
      destruct (isValidDate h v) as [[] |]; cbn [bind negb];
        [| discriminate | discriminate].
      destruct (isTooYoung h v 8); cbn [negb]; [discriminate |].
      destruct (isTooOld h v 100); discriminate.
  - destruct (in_dec string_dec fieldName objectPrototypeNames) as [P | NP].
    + cbn [In objectPrototypeNames] in P.
      repeat (destruct P as [<- | P]); try contradiction; discriminate.
    + rewrite validateField_unknown by assumption. discriminate.
Qed.

Lemma fallback_never_flags_profanity_witness :
  validateField host20240615 (newCharacterValidator RegExp.emptyOnly)
    "firstname" (Some "ass")
  <> Ret (Invalid "firstname" "profanity").
Proof.
  exact (proj2 (proj2 fallback_never_flags_profanity _ eq_refl)
           host20240615 "firstname" (Some "ass") "firstname").
Defined.

(** ** Dates that do not parse *)

Lemma falsy_unusable c : unusable c -> falsy c = true.
Proof.
  intros [-> | [-> | (q & -> & Z)]]; try reflexivity.
  cbn [falsy]. now apply Qeq_bool_iff.
Qed.

(** C6. When [parseISODate] gives an invalid date, the date counts as
    both too young and too old, for every bound; and it gives an
    invalid date whenever one of the three components is missing, not
    numeric, or zero. *)
Theorem unparseable_date_fails_both_age_rules :
  (forall (h : Host) (text : value) (n : Z),
     parseISODate text = InvalidDate ->
     isTooYoung h text n = true /\ isTooOld h text n = true)
  /\ (forall (text : value),
        (let '(y, mo, d) := components (orEmpty text) in
         unusable y \/ unusable mo \/ unusable d) ->
        parseISODate text = InvalidDate).
Proof.
  split.
  - intros h text n E. unfold isTooYoung, isTooOld. rewrite E. now split.
  - intros text. unfold parseISODate.
    destruct (components (orEmpty text)) as [[y mo] d].
    intros [U | [U | U]]; apply falsy_unusable in U; rewrite U;
      rewrite ?orb_true_r; reflexivity.
Qed.

Lemma unparseable_date_fails_both_age_rules_witness :
  isTooYoung host20240615 (Some "2020-00-10") 8 = true
  /\ isTooOld host20240615 (Some "2020-00-10") 8 = true.
Proof.
  apply (proj1 unparseable_date_fails_both_age_rules).
  apply (proj2 unparseable_date_fails_both_age_rules).
  cbn. right. left. right. right. exists (inject_Z 0).
  split; reflexivity.
Defined.

(** ** The pattern of forbidden terms *)

Lemma append_assoc (a b c : string) : (a ++ b) ++ c = a ++ b ++ c.
Proof. induction a as [| x a IH]; cbn; [reflexivity | now rewrite IH]. Qed.

Lemma append_empty_r (a : string) : a ++ "" = a.
Proof. induction a as [| x a IH]; cbn; [reflexivity | now rewrite IH]. Qed.

Lemma lastChar_nonempty x s : exists c, lastChar (String x s) = Some c.
Proof.
  revert x. induction s as [| y s IH]; intros x; cbn [lastChar]; eauto.
Qed.

Lemma lastChar_cons x s : lastChar (String x s) = lastOr (Some x) s.
Proof.
  unfold lastOr. destruct s as [| y s]; [reflexivity |].
  destruct (lastChar_nonempty y s) as [c E].
  cbn [lastChar] in *. now rewrite E.
Qed.

Lemma lastOr_cons prev x s : lastOr prev (String x s) = lastOr (Some x) s.
Proof.
  unfold lastOr at 1. rewrite lastChar_cons.
  unfold lastOr. now destruct (lastChar s).
Qed.

Lemma lastOr_None s : lastOr None s = lastChar s.
Proof. unfold lastOr. now destruct (lastChar s). Qed.

Lemma lastOr_append prev a b :
  lastOr (lastOr prev a) b = lastOr prev (a ++ b).
Proof.
  revert prev. induction a as [| x a IH]; intros prev; [reflexivity |].
  cbn [append]. now rewrite !lastOr_cons, IH.
Qed.

Lemma lastChar_append a b : lastChar (a ++ b) = lastOr (lastChar a) b.
Proof. now rewrite <- !lastOr_None, lastOr_append. Qed.

Lemma m_literal t st k :
  RegExp.m true (RegExp.literal t) st k
  = match matchLiteral t st with Some st' => k st' | None => false end.
Proof.
  revert st k. induction t as [| c t IH]; intros st k;
    cbn [RegExp.literal RegExp.m matchLiteral]; [reflexivity |].
  destruct (snd st) as [| x rest]; [reflexivity |].
  destruct (Ascii.eqb _ _); [apply IH | reflexivity].
Qed.

Lemma m_disjunction alts st k :
  alts <> [] ->
  RegExp.m true (RegExp.disjunction (map RegExp.literal alts)) st k
  = existsb (fun t => match matchLiteral t st with
                      | Some st' => k st'
                      | None => false
                      end) alts.
Proof.
  induction alts as [| a alts IH]; intros NE; [contradiction |].
  destruct alts as [| b alts].
  - cbn [map RegExp.disjunction existsb]. now rewrite m_literal, orb_false_r.
  - change (RegExp.disjunction (map RegExp.literal (a :: b :: alts)))
      with (RegExp.Alt (RegExp.literal a)
              (RegExp.disjunction (map RegExp.literal (b :: alts)))).
    cbn [RegExp.m]. rewrite m_literal, IH by discriminate. reflexivity.
Qed.

Lemma matchLiteral_spec t prev s st' :
  matchLiteral t (prev, s) = Some st'
  <-> exists mid, s = mid ++ snd st' /\ eqNoCase mid t = true
                  /\ fst st' = lastOr prev mid.
Proof.
  revert prev s. induction t as [| c t IH]; intros prev s;
    cbn [matchLiteral snd].
  - split.
    + intros E. injection E as <-. exists "". repeat split.
    + intros (mid & -> & E & F). destruct mid; [| discriminate E].
      destruct st' as [p r]. cbn in *. now subst.
  - destruct s as [| x s].
    + split; [discriminate |].
      intros (mid & E & Q & _). destruct mid; discriminate.
    + destruct (Ascii.eqb (RegExp.canonicalize true x)
                          (RegExp.canonicalize true c)) eqn:X.
      * rewrite IH. split.
        -- intros (mid & -> & Q & F). exists (String x mid).
           split; [reflexivity |]. split.
           ++ cbn [eqNoCase]. now rewrite X, Q.
           ++ now rewrite F, lastOr_cons.
        -- intros (mid & E & Q & F). destruct mid as [| y mid];
             [discriminate Q |].
           cbn [append] in E. injection E as <- ->.
           cbn [eqNoCase] in Q. apply andb_prop in Q as [_ Q].
           exists mid. split; [reflexivity |]. split; [exact Q |].
           now rewrite F, lastOr_cons.
      * split; [discriminate |].
        intros (mid & E & Q & _). destruct mid as [| y mid];
          [discriminate Q |].
        cbn [append] in E. injection E as <- ->.
        cbn [eqNoCase] in Q. rewrite X in Q. discriminate Q.
Qed.

Lemma search_spec re prev s :
  RegExp.search re prev s = true
  <-> exists pre post,
        s = pre ++ post
        /\ RegExp.m (RegExp.ignoreCase re) (RegExp.pattern re)
             (lastOr prev pre, post) (fun _ => true) = true.
Proof.
  revert prev. induction s as [| c s IH]; intros prev; cbn [RegExp.search].
  - rewrite orb_false_r. split.
    + intros H. exists "", "". split; [reflexivity | exact H].
    + intros (pre & post & E & H).
      destruct pre; [| discriminate E]. cbn in E. subst post. exact H.
  - rewrite orb_true_iff, IH. split.
    + intros [H | (pre & post & -> & H)].
      * exists "", (String c s). split; [reflexivity | exact H].
      * exists (String c pre), post. split; [reflexivity |].
        now rewrite lastOr_cons.
    + intros (pre & post & E & H). destruct pre as [| x pre].
      * left. cbn in E. subst post. exact H.
      * right. cbn [append] in E. injection E as <- ->.
        exists pre, post. split; [reflexivity |].
        now rewrite lastOr_cons in H.
Qed.

Lemma wordAfter_firstChar p s : RegExp.wordAfter (p, s) = isWord (firstChar s).
Proof. now destruct s. Qed.

Lemma wordBefore_isWord p s : RegExp.wordBefore (p, s) = isWord p.
Proof. reflexivity. Qed.

Lemma sourceOfTerms_examples :
  RegExp.sourceOfTerms [] = "()\b"
  /\ RegExp.sourceOfTerms ["ass"; "damn"] = "(ass|damn)\b".
Proof. split; reflexivity. Qed.

Lemma alternatives_nonempty terms : alternatives terms <> [].
Proof. destruct terms; discriminate. Qed.

Lemma ofTerms_Some terms re :
  RegExp.ofTerms terms = Some re ->
  re = {| RegExp.pattern :=
            RegExp.Seq (RegExp.disjunction
                          (map RegExp.literal (alternatives terms)))
                       RegExp.WordBoundary;
          RegExp.ignoreCase := true |}.
Proof.
  unfold RegExp.ofTerms. destruct (forallb _ _); [| discriminate].
  intros E. now injection E as <-.
Qed.

(** What the pattern of the forbidden terms accepts. *)
Lemma profanity_test terms re s :
  RegExp.ofTerms terms = Some re ->
  (RegExp.test re (Some s) = true <-> occursBeforeBoundary terms s).
Proof.
  intros E. apply ofTerms_Some in E. subst re.
  unfold RegExp.test, ToString, occursBeforeBoundary.
  rewrite search_spec. cbn [RegExp.ignoreCase RegExp.pattern RegExp.m].
  split.
  - intros (pre & post & -> & H).
    rewrite m_disjunction in H by apply alternatives_nonempty.
    apply existsb_exists in H. destruct H as (t & I & H).
    destruct (matchLiteral t (lastOr None pre, post)) as [[p r] |] eqn:M;
      [| discriminate H].
    apply matchLiteral_spec in M. destruct M as (mid & -> & Q & F).
    cbn [fst snd] in *. subst p.
    exists pre, mid, r, t. repeat split; auto.
    rewrite <- lastOr_None, <- lastOr_append.
    rewrite wordAfter_firstChar, wordBefore_isWord in H.
    destruct (xorb _ _) eqn:X in H; [exact X | discriminate H].
  - intros (pre & mid & post & t & -> & I & Q & X).
    exists pre, (mid ++ post). split; [reflexivity |].
    rewrite m_disjunction by apply alternatives_nonempty.
    apply existsb_exists. exists t. split; [exact I |].
    assert (M : matchLiteral t (lastOr None pre, mid ++ post)
                = Some (lastOr (lastOr None pre) mid, post)).
    { apply matchLiteral_spec. exists mid. auto. }
    rewrite M, wordAfter_firstChar, wordBefore_isWord.
    rewrite <- lastOr_None, <- lastOr_append in X. now rewrite X.
Qed.

Lemma canonicalize_word x :
  RegExp.isWordChar (RegExp.canonicalize true x) = RegExp.isWordChar x.
Proof. destruct x as [[] [] [] [] [] [] [] []]; reflexivity. Qed.

Lemma eqNoCase_empty_l t : eqNoCase "" t = true -> t = "".
Proof. destruct t; [reflexivity | discriminate]. Qed.

Lemma eqNoCase_empty_r s : eqNoCase s "" = true -> s = "".
Proof. destruct s; [reflexivity | discriminate]. Qed.

Lemma eqNoCase_last s t :
  eqNoCase s t = true -> isWord (lastChar s) = isWord (lastChar t).
Proof.
  revert t. induction s as [| x s IH]; intros t E.
  - apply eqNoCase_empty_l in E. now subst t.
  - destruct t as [| y t]; [discriminate E |].
    cbn [eqNoCase] in E. apply andb_prop in E as [C E].
    destruct s as [| x' s].
    + apply eqNoCase_empty_l in E. subst t. cbn [lastChar isWord].
      apply Ascii.eqb_eq in C.
      now rewrite <- (canonicalize_word x), C, canonicalize_word.
    + destruct t as [| y' t]; [discriminate E |].
      change (lastChar (String x (String x' s))) with (lastChar (String x' s)).
      change (lastChar (String y (String y' t))) with (lastChar (String y' t)).
      now apply IH.
Qed.

Lemma allWord_append a b : allWord (a ++ b) = allWord a && allWord b.
Proof.
  induction a as [| x a IH]; cbn [append allWord]; [reflexivity |].
  now rewrite IH, andb_assoc.
Qed.

Lemma allWord_last s : allWord s = true -> s <> "" -> isWord (lastChar s) = true.
Proof.
  induction s as [| x s IH]; intros W NE; [contradiction |].
  cbn [allWord] in W. apply andb_prop in W as [Wx Ws].
  destruct s as [| y s]; [exact Wx |].
  change (lastChar (String x (String y s))) with (lastChar (String y s)).
  apply IH; [exact Ws | discriminate].
Qed.

Lemma isWord_last_nonempty s : isWord (lastChar s) = true -> s <> "".
Proof. intros H ->. discriminate H. Qed.

Lemma append_empty a b : a ++ b = "" -> a = "" /\ b = "".
Proof. destruct a; [auto | discriminate]. Qed.

(** In a value that is one word, only the end of the value is a
    boundary after a character, so a term is found exactly when the
    value ends with it. *)
Lemma one_word_flagged terms s :
  s <> "" -> allWord s = true ->
  (occursBeforeBoundary terms s <-> endsWithTerm terms s).
Proof.
  intros NE W. split.
  - intros (pre & mid & post & t & E & I & Q & X).
    destruct post as [| c post].
    + exists pre, mid, t. rewrite append_empty_r in E. auto.
    + destruct (pre ++ mid) as [| z u] eqn:PM.
      * (* the empty term at the start of the word *)
        apply append_empty in PM as [-> ->].
        apply eqNoCase_empty_l in Q. subst t.
        exists s, "", "". rewrite append_empty_r. auto.
      * exfalso. subst s. rewrite <- append_assoc, PM, allWord_append in W.
        apply andb_prop in W as [W1 W2]. cbn [allWord] in W2.
        apply andb_prop in W2 as [Wc _]. cbn [firstChar isWord] in X.
        rewrite Wc, (allWord_last _ W1) in X by discriminate.
        discriminate X.
  - intros (pre & mid & t & E & I & Q).
    exists pre, mid, "", t. rewrite append_empty_r.
    repeat split; auto. subst s.
    rewrite (allWord_last _ W NE). reflexivity.
Qed.

Lemma In_alternatives terms t : In t terms -> In t (alternatives terms).
Proof. destruct terms; [contradiction | auto]. Qed.

(** C1, as the code has it, for a list of terms none of which holds a
    regex syntax character (the terms are spliced into the pattern as
    they are; an empty list gives the single empty term).  The pattern
    is matched in any letter case and is anchored by a word boundary
    after the term only: a value is flagged exactly when a term occurs
    in it and the occurrence ends at a word boundary.  For a non-empty
    value that is one word this means: exactly when the value ends with
    a term.  In particular a value equal to a term of the list that
    ends in a word character is reported as profanity (for the two name
    fields when it is 2 to 16 characters long). *)
Theorem profanity_trailing_boundary (terms : list string) (re : RegExp.t) :
  RegExp.ofTerms terms = Some re ->
  let cv := newCharacterValidator re in
  (forall s, RegExp.test re (Some s) = true <-> occursBeforeBoundary terms s)
  /\ (forall s, s <> "" -> allWord s = true ->
        (RegExp.test re (Some s) = true <-> endsWithTerm terms s))
  /\ (forall h s t,
        In t terms -> eqNoCase s t = true -> isWord (lastChar t) = true ->
        validateField h cv "nationality" (Some s)
        = Ret (Invalid "nationality" "profanity")
        /\ (2 <= Z.of_nat (String.length s) <= 16 ->
            validateField h cv "firstname" (Some s)
            = Ret (Invalid "firstname" "profanity")
            /\ validateField h cv "lastname" (Some s)
               = Ret (Invalid "lastname" "profanity"))).
Proof.
  intros E cv. split; [| split].
  - intros s. now apply profanity_test.
  - intros s NE W. rewrite (profanity_test _ _ s E).
    now apply one_word_flagged.
  - intros h s t I Q L.
    assert (Ls : isWord (lastChar s) = true)
      by now rewrite (eqNoCase_last _ _ Q).
    assert (NE : s <> "") by now apply isWord_last_nonempty.
    assert (T : truthy (Some s) = true).
    { cbn [truthy]. destruct (String.eqb_spec s ""); [contradiction |].
      reflexivity. }
    assert (F : RegExp.test re (Some s) = true).
    { apply (profanity_test _ _ s E). exists "", s, "", t.
      rewrite append_empty_r. cbn [append firstChar isWord].
      rewrite Ls. auto using In_alternatives. }
    split.
    + unfold cv. now rewrite validateField_nationality, T, F.
    + intros [L2 L16]. unfold cv.
      rewrite validateField_firstname, validateField_lastname.
      unfold nameRules. rewrite T, F. cbn [jsLength bind negb].
      apply Z.leb_le in L2, L16. now rewrite L2, L16.
Qed.

Lemma profanity_trailing_boundary_witness :
  validateField host20240615
    (newCharacterValidator
       {| RegExp.pattern :=
            RegExp.Seq (RegExp.literal "ass") RegExp.WordBoundary;
          RegExp.ignoreCase := true |})
    "nationality" (Some "ASS")
  = Ret (Invalid "nationality" "profanity").
Proof.
  exact (proj1 (proj2 (proj2 (profanity_trailing_boundary ["ass"] _ eq_refl))
                  host20240615 "ASS" "ass"
                  (or_introl eq_refl) eq_refl eq_refl)).
Defined.

(** C1 as stated fails: with the term [ass], the value [bass] holds the
    term only inside a longer word, after a letter, and is reported as
    profanity. *)
Lemma whole_word_claim_counterexample :
  option_map
    (fun re => validateField host20240615 (newCharacterValidator re)
                 "firstname" (Some "bass"))
    (RegExp.ofTerms ["ass"])
  = Some (Ret (Invalid "firstname" "profanity"))
  /\ "bass" = "b" ++ "ass"
  /\ allWord "bass" = true.
Proof. repeat split. Qed.

(** ** The age rules *)

Lemma same_day_fields t t' :
  Day t = Day t' ->
  YearFromTime t = YearFromTime t'
  /\ MonthFromTime t = MonthFromTime t'
  /\ DateFromTime t = DateFromTime t'.
Proof.
  intros E.
  assert (Y : YearFromTime t = YearFromTime t')
    by (unfold YearFromTime; now rewrite E).
  assert (W : DayWithinYear t = DayWithinYear t')
    by (unfold DayWithinYear; now rewrite E, Y).
  assert (L : InLeapYear t = InLeapYear t')
    by (unfold InLeapYear; now rewrite Y).
  assert (M : MonthFromTime t = MonthFromTime t')
    by (unfold MonthFromTime; now rewrite L, W).
  unfold DateFromTime. now rewrite W, L, M.
Qed.

Lemma newDate_Some x t : newDate x = Some t -> x = Some t.
Proof.
  unfold newDate. destruct x as [y |]; [| discriminate].
  intros E. now rewrite (TimeClip_Some _ _ E).
Qed.

Lemma DateUTC_midnight a b c t :
  DateUTC a b c = Some t -> t = Day t * msPerDay.
Proof.
  unfold DateUTC, MakeDate. destruct (MakeDay _ b c) as [day |];
    [| discriminate].
  cbn [option_map]. intros E. apply TimeClip_Some in E. subst t.
  now rewrite Day_midnight.
Qed.

(** A date of birth that parses is the first instant of a UTC day. *)
Lemma parseISODate_midnight text t :
  parseISODate text = Some t -> t = Day t * msPerDay.
Proof.
  unfold parseISODate. destruct (components (orEmpty text)) as [[y mo] d].
  destruct (falsy y || falsy mo || falsy d); [discriminate |].
  intros E. apply newDate_Some in E. now apply DateUTC_midnight in E.
Qed.

Lemma clock_day_range h :
  clockInRange h -> Z.abs (Day (clock h) * msPerDay) <= 8640000000000000.
Proof.
  unfold clockInRange, Day, msPerDay. intros H.
  Z.div_mod_to_equations. lia.
Qed.

Lemma DateUTC_ofZ y mo d :
  ~ 0 <= y <= 99 ->
  Z.abs (midnight y mo d) <= 8640000000000000 ->
  newDate (DateUTC (ofZ y) (ofZ mo) (ofZ d)) = Some (midnight y mo d).
Proof.
  intros Hy R. unfold newDate, DateUTC.
  rewrite MakeFullYear_ofZ, MakeDay_ofZ.
  replace ((0 <=? y) && (y <=? 99)) with false.
  - cbn [MakeDate option_map]. fold (midnight y mo d).
    now rewrite !TimeClip_in_range.
  - symmetry. apply andb_false_iff.
    rewrite Z.leb_gt, Z.leb_gt. lia.
Qed.

(** Today is the first instant of the UTC day of the clock. *)
Lemma todayUTC_value h :
  clockInRange h -> 100 <= YearFromTime (clock h) ->
  todayUTC h = Some (Day (clock h) * msPerDay).
Proof.
  intros R Y. unfold todayUTC, getUTCFullYear, getUTCMonth, getUTCDate.
  rewrite DateUTC_ofZ.
  - unfold midnight. now rewrite dayNumber_civil.
  - lia.
  - unfold midnight. rewrite dayNumber_civil. now apply clock_day_range.
Qed.

(** The cutoff is today's date with the year moved back, when that
    date exists and its year is not read as 19xx. *)
Lemma cutoff_value h n :
  clockInRange h -> 0 <= n ->
  100 <= YearFromTime (clock h) - n ->
  realDate (YearFromTime (clock h) - n) (MonthFromTime (clock h))
           (DateFromTime (clock h)) ->
  cutoff h n
  = Some (midnight (YearFromTime (clock h) - n) (MonthFromTime (clock h))
                   (DateFromTime (clock h))).
Proof.
  intros R Hn Y Rd. unfold cutoff.
  rewrite todayUTC_value by (assumption || lia).
  unfold getUTCFullYear, getUTCMonth, getUTCDate.
  destruct (same_day_fields (Day (clock h) * msPerDay) (clock h)
              (Day_midnight _)) as (-> & -> & ->).
  rewrite numSub_ofZ. apply DateUTC_ofZ; [lia |].
  destruct (dayNumber_in_year _ _ _ Rd) as [[Lo Hi] _].
  pose proof (DayFromYear_mono 100 (YearFromTime (clock h) - n) Y) as B.
  change (DayFromYear 100) with (-683003) in B.
  pose proof (YearFromDay_bounds (Day (clock h))) as [C _].
  fold (YearFromTime (clock h)) in C.
  pose proof (DayFromYear_mono (YearFromTime (clock h) - n)
                (YearFromTime (clock h)) ltac:(lia)) as B'.
  pose proof (clock_day_range h R) as CR.
  assert (Up : dayNumber (YearFromTime (clock h) - n)
                 (MonthFromTime (clock h)) (DateFromTime (clock h))
               <= Day (clock h)).
  { destruct (Z.eq_dec n 0) as [-> | NZ].
    - rewrite Z.sub_0_r, dayNumber_civil. lia.
    - pose proof (DayFromYear_mono (YearFromTime (clock h) - n + 1)
                    (YearFromTime (clock h)) ltac:(lia)). lia. }
  unfold midnight, msPerDay in *. lia.
Qed.

(** C4, as the code has it.  For a date of birth that parses and a
    bound for which today's date moved back by that many years is a
    date of the calendar in year 100 or later: the date is too young
    exactly when it is strictly later than today moved back by the
    bound, and too old exactly when it is strictly earlier.  With today
    on 2024-06-15, the date rules report 2016-06-16 as too young, pass
    2016-06-15 (eight years old today) and 1924-06-15 (a hundred), and
    report 1924-06-14 as too old; 2020-06-15 and 2020-06-16 are four and
    three years old and are too young. *)
Theorem age_rules_calendar (h : Host) :
  clockInRange h ->
  let Y := YearFromTime (clock h) in
  let M := MonthFromTime (clock h) in
  let D := DateFromTime (clock h) in
  (forall (text : value) (t n : Z),
     parseISODate text = Some t ->
     0 <= n -> 100 <= Y - n -> D <= daysInMonth (Y - n) M ->
     (isTooYoung h text n = true <-> earlier (Y - n, M, D) (civil t))
     /\ (isTooOld h text n = true <-> earlier (civil t) (Y - n, M, D)))
  /\ (zoneInRange h -> Day (clock h) = 19889 ->
      forall re,
        let cv := newCharacterValidator re in
        validateField h cv "date" (Some "2016-06-16")
        = Ret (Invalid "date" "age_too_young")
        /\ validateField h cv "date" (Some "2016-06-15") = Ret Valid
        /\ validateField h cv "date" (Some "1924-06-15") = Ret Valid
        /\ validateField h cv "date" (Some "1924-06-14")
           = Ret (Invalid "date" "age_too_old")
        /\ validateField h cv "date" (Some "2020-06-16")
           = Ret (Invalid "date" "age_too_young")
        /\ validateField h cv "date" (Some "2020-06-15")
           = Ret (Invalid "date" "age_too_young")).
Proof.
  intros R Y M D.
  assert (G : forall (text : value) (t n : Z),
     parseISODate text = Some t ->
     0 <= n -> 100 <= Y - n -> D <= daysInMonth (Y - n) M ->
     (isTooYoung h text n = true <-> earlier (Y - n, M, D) (civil t))
     /\ (isTooOld h text n = true <-> earlier (civil t) (Y - n, M, D))).
  { intros text t n P Hn Hy Hd.
    assert (Rc : realDate (Y - n) M D).
    { destruct (civil_real (clock h)) as [Hm [Hd1 _]].
      split; [exact Hm | split; [exact Hd1 | exact Hd]]. }
    pose proof (civil_real t) as Rt.
    pose proof (parseISODate_midnight _ _ P) as Mt.
    unfold isTooYoung, isTooOld, dateLt. rewrite P. cbn [isNaNDate].
    unfold Y, M, D in *. rewrite (cutoff_value h n R Hn Hy Rc).
    cbn [dateGt]. rewrite !Z.ltb_lt.
    unfold civil. rewrite !dayNumber_earlier by assumption.
    rewrite dayNumber_civil. rewrite Mt at 1 3.
    unfold midnight, msPerDay. lia. }
  split; [exact G |].
  intros Hz Today re cv.
  assert (C : (Y, M, D) = (2024, 5, 15)).
  { destruct (same_day_fields (clock h) (19889 * msPerDay)) as (Ey & Em & Ed).
    - now rewrite Day_midnight.
    - unfold Y, M, D. now rewrite Ey, Em, Ed. }
  injection C as Ey Em Ed.
  assert (Ex : forall ys ms ds t,
            String.length ys = 4%nat -> String.length ms = 2%nat ->
            String.length ds = 2%nat ->
            allDigits ys = true -> allDigits ms = true -> allDigits ds = true ->
            parseISODate (Some (ys ++ "-" ++ ms ++ "-" ++ ds)) = Some t ->
            validateField h cv "date" (Some (ys ++ "-" ++ ms ++ "-" ++ ds))
            = if negb ((100 <=? decimal ys)
                       && ((0 <=? decimal ms - 1) && (decimal ms - 1 <=? 11)
                           && (1 <=? decimal ds)
                           && (decimal ds
                               <=? daysInMonth (decimal ys) (decimal ms - 1))))
              then Ret (Invalid "date" "invalid_date")
              else if dayNumber 2016 5 15 <? Day t
                   then Ret (Invalid "date" "age_too_young")
                   else if Day t <? dayNumber 1924 5 15
                        then Ret (Invalid "date" "age_too_old")
                        else Ret Valid).
  { intros ys ms ds t L1 L2 L3 D1 D2 D3 P.
    unfold cv. rewrite validateField_date.
    assert (T : truthy (Some (ys ++ "-" ++ ms ++ "-" ++ ds)) = true).
    { destruct ys; [discriminate L1 | reflexivity]. }
    rewrite T. cbn [negb].
    rewrite (isValidDate_decide h _ ys ms ds Hz)
      by now apply isoShape_intro.
    cbn [bind]. destruct (negb _); [reflexivity |].
    destruct (G _ t 8 P) as [Gy _]; [lia | lia | rewrite Ey, Em, Ed; cbn; lia |].
    destruct (G _ t 100 P) as [_ Go];
      [lia | lia | rewrite Ey, Em, Ed; cbn; lia |].
    rewrite Ey, Em, Ed in Gy, Go.
    pose proof (civil_real t) as Rt.
    unfold civil in Gy, Go.
    rewrite dayNumber_earlier in Gy, Go
      by (assumption || (split; cbn; lia)).
    rewrite dayNumber_civil in Gy, Go.
    change (2024 - 8) with 2016 in Gy. change (2024 - 100) with 1924 in Go.
    rewrite <- Z.ltb_lt in Gy, Go.
    apply eq_true_iff_eq in Gy, Go.
    now rewrite !negb_involutive, Gy, Go. }
  repeat split.
  - exact (Ex "2016" "06" "16" _ eq_refl eq_refl eq_refl eq_refl eq_refl
             eq_refl eq_refl).
  - exact (Ex "2016" "06" "15" _ eq_refl eq_refl eq_refl eq_refl eq_refl
             eq_refl eq_refl).
  - exact (Ex "1924" "06" "15" _ eq_refl eq_refl eq_refl eq_refl eq_refl
             eq_refl eq_refl).
  - exact (Ex "1924" "06" "14" _ eq_refl eq_refl eq_refl eq_refl eq_refl
             eq_refl eq_refl).
  - exact (Ex "2020" "06" "16" _ eq_refl eq_refl eq_refl eq_refl eq_refl
             eq_refl eq_refl).
  - exact (Ex "2020" "06" "15" _ eq_refl eq_refl eq_refl eq_refl eq_refl
             eq_refl eq_refl).
Qed.

Lemma age_rules_calendar_witness :
  clockInRange host20240615
  /\ isTooYoung host20240615 (Some "2016-06-16") 8 = true
  /\ validateField host20240615 (newCharacterValidator RegExp.emptyOnly)
       "date" (Some "2016-06-15")
     = Ret Valid.
Proof.
  assert (R : clockInRange host20240615)
    by (unfold clockInRange, host20240615, clock; lia).
  assert (Hz : zoneInRange host20240615)
    by (unfold zoneInRange, host20240615, LocalTZA, msPerDay; lia).
  split; [exact R |]. split.
  - apply (proj1 (age_rules_calendar host20240615 R)
             (Some "2016-06-16") 1466035200000 8).
    + reflexivity.
    + lia.
    + vm_compute. discriminate.
    + vm_compute. discriminate.
    + vm_compute. right. split; [reflexivity |]. right.
      split; reflexivity.
  - exact (proj1 (proj2 (proj2 (age_rules_calendar host20240615 R)
                           Hz eq_refl RegExp.emptyOnly))).
Defined.

(** C4 as stated fails.  On 2024-06-15 a date of birth of 2020-06-15
    is four years old, not eight, and is reported as too young.  The
    general sentence fails outside the bounds of the amended one.  The
    cutoff is not always today's month and day: on 2024-02-29 with a
    bound of one year it is 2023-03-01, so a date of birth of
    2023-03-01, later than any 29th of February 2023, is not too young.
    A cutoff year below 100 is read as 19xx: with a bound of 2000 years
    the year 1000 is not too young.  And a cutoff beyond the range of
    time values compares false: with a bound of -300000 years no date
    is too old. *)
Lemma age_example_counterexample :
  civil (clock host20240615) = (2024, 5, 15)
  /\ validateField host20240615 (newCharacterValidator RegExp.emptyOnly)
       "date" (Some "2020-06-15")
     = Ret (Invalid "date" "age_too_young")
  /\ civil (clock host20240229) = (2024, 1, 29)
  /\ (exists t, parseISODate (Some "2023-03-01") = Some t
                /\ earlier (2024 - 1, 1, 29) (civil t))
  /\ isTooYoung host20240229 (Some "2023-03-01") 1 = false
  /\ (exists t, parseISODate (Some "1000-01-01") = Some t
                /\ earlier (2024 - 2000, 5, 15) (civil t))
  /\ isTooYoung host20240615 (Some "1000-01-01") 2000 = false
  /\ (exists t, parseISODate (Some "2020-06-15") = Some t
                /\ earlier (civil t) (2024 - -300000, 5, 15))
  /\ isTooOld host20240615 (Some "2020-06-15") (-300000) = false.
Proof.
  repeat split; try reflexivity.
  - eexists. split; [reflexivity |].
    vm_compute. right. split; [reflexivity |]. left. reflexivity.
  - eexists. split; [reflexivity |]. vm_compute. left. reflexivity.
  - eexists. split; [reflexivity |]. vm_compute. left. reflexivity.
Qed.

(* ================================================================== *)
(** * Further properties of the validator *)

(** ** Verdicts of the rule table *)

Lemma truthy_Some s : truthy (Some s) = true <-> s <> "".
Proof.
  cbn [truthy]. destruct (String.eqb_spec s "") as [-> | N]; cbn [negb].
  - split; [discriminate | intros N; now elim N].
  - split; auto.
Qed.

Lemma length_zero s : String.length s = 0%nat <-> s = "".
Proof. destruct s; split; (reflexivity || discriminate). Qed.

Ltac name_cases s :=
  unfold nameRules;
  cbn [jsLength bind];
  destruct (String.eqb_spec s "") as [-> | NE];
    [ cbn [truthy String.eqb negb String.length]
    | assert (T : truthy (Some s) = true) by (now apply truthy_Some);
      rewrite T; cbn [negb];
      assert (0 < String.length s)%nat
        by (destruct s; [contradiction | cbn; lia]);
      destruct (Z.leb_spec 2 (Z.of_nat (String.length s)));
      destruct (Z.leb_spec (Z.of_nat (String.length s)) 16);
      cbn [negb] ].

Lemma nameRules_valid re f short long v :
  nameRules re f short long v = Ret Valid
  <-> exists s, v = Some s /\ (2 <= String.length s <= 16)%nat
                /\ RegExp.test re (Some s) = false.
Proof.
  destruct v as [s |].
  2: { unfold nameRules. cbn [truthy negb]. split; [discriminate |].
       intros (s & D & _). discriminate D. }
  name_cases s.
  - split; [discriminate |].
    intros (s & D & L & _). injection D as <-. cbn in L. lia.
  - destruct (RegExp.test re (Some s)) eqn:Q; cbn [negb]; split;
      try discriminate.
    + intros (s' & D & _ & Q'). injection D as <-. congruence.
    + intros _. exists s. repeat split; lia || assumption.
    + reflexivity.
  - split; [discriminate |].
    intros (s' & D & L & _). injection D as <-. lia.
  - split; [discriminate |].
    intros (s' & D & L & _). injection D as <-. lia.
  - lia.
Qed.

(** X1. What a name field reports, for each code: forgotten for an
    absent or empty value, too short for a value of one character, too
    long for more than 16, profanity for a flagged value of 2 to 16
    characters, and valid for the other values of 2 to 16 characters.
    A forbidden term of one character or of more than 16 is reported by
    its length. *)
Theorem name_field_verdicts (h : Host) (re : RegExp.t)
  (f short long : string) (v : value) :
  nameField f short long ->
  let r := validateField h (newCharacterValidator re) f v in
  (r = Ret (Invalid f "forgotten_field") <-> truthy v = false)
  /\ (r = Ret (Invalid f short)
      <-> exists s, v = Some s /\ String.length s = 1%nat)
  /\ (r = Ret (Invalid f long)
      <-> exists s, v = Some s /\ (16 < String.length s)%nat)
  /\ (r = Ret (Invalid f "profanity")
      <-> exists s, v = Some s /\ (2 <= String.length s <= 16)%nat
                    /\ RegExp.test re v = true)
  /\ (r = Ret Valid
      <-> exists s, v = Some s /\ (2 <= String.length s <= 16)%nat
                    /\ RegExp.test re v = false).
Proof.
  intros N r. subst r.
  assert (E : validateField h (newCharacterValidator re) f v
              = nameRules re f short long v).
  { destruct N as [(-> & -> & ->) | (-> & -> & ->)];
      [apply validateField_firstname | apply validateField_lastname]. }
  rewrite E. clear E.
  destruct v as [s |].
  2: { unfold nameRules. cbn [truthy negb].
       repeat split; try discriminate; try reflexivity;
         try (intros (s & D & _); discriminate D);
         destruct N as [(-> & -> & ->) | (-> & -> & ->)]; discriminate. }
  name_cases s.
  - repeat split; try discriminate; try reflexivity;
      try (intros (s & D & L); injection D as <-; cbn in L; lia);
      try (intros (s & D & L & _); injection D as <-; cbn in L; lia);
      destruct N as [(-> & -> & ->) | (-> & -> & ->)]; discriminate.
  - destruct (RegExp.test re (Some s)) eqn:Q; cbn [negb];
      repeat split; try discriminate; try reflexivity;
      try (intros (s' & D & L); injection D as <-; lia || congruence);
      try (intros (s' & D & L & Q'); injection D as <-; lia || congruence);
      try (intros _; exists s; repeat split; lia || reflexivity);
      destruct N as [(-> & -> & ->) | (-> & -> & ->)]; discriminate.
  - repeat split; try discriminate; try reflexivity;
      try (intros (s' & D & L); injection D as <-; lia);
      try (intros (s' & D & L & Q'); injection D as <-; lia);
      try (intros _; exists s; repeat split; lia || reflexivity);
      destruct N as [(-> & -> & ->) | (-> & -> & ->)]; discriminate.
  - repeat split; try discriminate; try reflexivity;
      try (intros (s' & D & L); injection D as <-; lia);
      try (intros (s' & D & L & Q'); injection D as <-; lia);
      try (intros _; exists s; repeat split; lia || reflexivity);
      destruct N as [(-> & -> & ->) | (-> & -> & ->)]; discriminate.
  - lia.
Qed.

Lemma name_field_verdicts_witness :
  validateField host20240615 (newCharacterValidator RegExp.emptyOnly)
    "lastname" (Some "Abcdefghijklmnopq")
  = Ret (Invalid "lastname" "lastname_too_long").
Proof.
  apply (proj1 (proj2 (proj2 (name_field_verdicts host20240615
           RegExp.emptyOnly "lastname" "lastname_too_short"
           "lastname_too_long" (Some "Abcdefghijklmnopq")
           (or_intror (conj eq_refl (conj eq_refl eq_refl))))))).
  exists "Abcdefghijklmnopq". split; [reflexivity | cbn; lia].
Defined.

Lemma validateFields_agree h cv fields (c c' : Character) :
  (forall f, In f fields -> getField c' f = getField c f) ->
  validateFields h cv fields c' = validateFields h cv fields c.
Proof.
  induction fields as [| f fields IH]; intros X; cbn [validateFields];
    [reflexivity |].
  rewrite (X f (or_introl eq_refl)), IH; [reflexivity |].
  intros g G. apply X. now right.
Qed.

(** X2. [validateCharacter] reads the five fields of the rule table
    and nothing else: two records that agree on them get the same
    result, whatever other keys they hold. *)
Theorem validateCharacter_reads_five_fields (h : Host) (re : RegExp.t)
  (c c' : Character) :
  (forall f, In f fieldOrder -> getField c' f = getField c f) ->
  validateCharacter h (newCharacterValidator re) c'
  = validateCharacter h (newCharacterValidator re) c.
Proof. intros X. unfold validateCharacter. now apply validateFields_agree. Qed.

Lemma validateCharacter_reads_five_fields_witness :
  validateCharacter host20240615 (newCharacterValidator RegExp.emptyOnly)
    [("cid", "3"); ("firstname", "Al")]
  = validateCharacter host20240615 (newCharacterValidator RegExp.emptyOnly)
      [("firstname", "Al")].
Proof.
  apply validateCharacter_reads_five_fields.
  intros f I. cbn [In fieldOrder] in I.
  repeat (destruct I as [<- | I]; [reflexivity |]). contradiction.
Defined.

(** X3. A record is accepted exactly when the first and the last name
    have 2 to 16 characters and are not flagged, the nationality is not
    empty and not flagged, the gender is not empty, and the date passes
    the calendar rule and both age rules. *)
Theorem validateCharacter_accepts (h : Host) (re : RegExp.t) (c : Character) :
  validateCharacter h (newCharacterValidator re) c = Ret Valid
  <-> (exists s, getField c "firstname" = Some s
                 /\ (2 <= String.length s <= 16)%nat
                 /\ RegExp.test re (Some s) = false)
      /\ (exists s, getField c "lastname" = Some s
                    /\ (2 <= String.length s <= 16)%nat
                    /\ RegExp.test re (Some s) = false)
      /\ (exists s, getField c "nationality" = Some s /\ s <> ""
                    /\ RegExp.test re (Some s) = false)
      /\ (exists s, getField c "gender" = Some s /\ s <> "")
      /\ (exists s, getField c "date" = Some s /\ s <> ""
                    /\ isValidDate h (Some s) = Ret true
                    /\ isTooYoung h (Some s) 8 = false
                    /\ isTooOld h (Some s) 100 = false).
Proof.
  set (cv := newCharacterValidator re).
  assert (A : validateCharacter h cv c = Ret Valid
              <-> forall f, In f fieldOrder ->
                    validateField h cv f (getField c f) = Ret Valid).
  { unfold validateCharacter. change (forIn (validators cv)) with fieldOrder.
    split.
    - intros E. apply validateFields_inv in E; [| apply fieldOrder_own].
      destruct E as [[_ V] | (b & f & a & _ & _ & _ & I)];
        [exact V | discriminate I].
    - apply validateFields_all_valid. }
  rewrite A. clear A.
  assert (Nat : forall v,
            validateField h cv "nationality" v = Ret Valid
            <-> exists s, v = Some s /\ s <> ""
                          /\ RegExp.test re (Some s) = false).
  { intros v. unfold cv. rewrite validateField_nationality.
    destruct v as [s |].
    - destruct (truthy (Some s)) eqn:T; cbn [negb].
      + apply truthy_Some in T.
        destruct (RegExp.test re (Some s)) eqn:Q; cbn [negb]; split;
          try discriminate; eauto.
        intros (s' & D & _ & Q'). injection D as <-. congruence.
      + split; [discriminate |]. intros (s' & D & NE & _).
        injection D as <-. apply truthy_Some in NE. congruence.
    - cbn [truthy negb]. split; [discriminate |].
      intros (s & D & _). discriminate D. }
  assert (Gen : forall v,
            validateField h cv "gender" v = Ret Valid
            <-> exists s, v = Some s /\ s <> "").
  { intros v. unfold cv. rewrite validateField_gender.
    destruct v as [s |].
    - destruct (truthy (Some s)) eqn:T; cbn [negb].
      + apply truthy_Some in T. split; eauto.
      + split; [discriminate |]. intros (s' & D & NE).
        injection D as <-. apply truthy_Some in NE. congruence.
    - cbn [truthy negb]. split; [discriminate |].
      intros (s & D & _). discriminate D. }
  assert (Dat : forall v,
            validateField h cv "date" v = Ret Valid
            <-> exists s, v = Some s /\ s <> ""
                          /\ isValidDate h (Some s) = Ret true
                          /\ isTooYoung h (Some s) 8 = false
                          /\ isTooOld h (Some s) 100 = false).
  { intros v. unfold cv. rewrite validateField_date.
    destruct v as [s |].
    - destruct (truthy (Some s)) eqn:T; cbn [negb].
      + apply truthy_Some in T.
        destruct (isValidDate h (Some s)) as [[] | e] eqn:V; cbn [bind negb].
        * destruct (isTooYoung h (Some s) 8) eqn:Y;
            destruct (isTooOld h (Some s) 100) eqn:O;
            cbn [negb]; split; try discriminate;
            try (intros (s' & D & _ & _ & Y' & O'); injection D as <-;
                 congruence).
          intros _. exists s. auto.
        * split; [discriminate |].
          intros (s' & D & _ & V' & _). injection D as <-. congruence.
        * split; [discriminate |].
          intros (s' & D & _ & V' & _). injection D as <-. congruence.
      + split; [discriminate |]. intros (s' & D & NE & _).
        injection D as <-. apply truthy_Some in NE. congruence.
    - cbn [truthy negb]. split; [discriminate |].
      intros (s & D & _). discriminate D. }
  assert (Fn : forall v,
            validateField h cv "firstname" v = Ret Valid
            <-> exists s, v = Some s /\ (2 <= String.length s <= 16)%nat
                          /\ RegExp.test re (Some s) = false).
  { intros v. unfold cv. rewrite validateField_firstname.
    apply nameRules_valid. }
  assert (Ln : forall v,
            validateField h cv "lastname" v = Ret Valid
            <-> exists s, v = Some s /\ (2 <= String.length s <= 16)%nat
                          /\ RegExp.test re (Some s) = false).
  { intros v. unfold cv. rewrite validateField_lastname.
    apply nameRules_valid. }
  split.
  - intros V. repeat split.
    + apply Fn. apply V. cbn; tauto.
    + apply Ln. apply V. cbn; tauto.
    + apply Nat. apply V. cbn; tauto.
    + apply Gen. apply V. cbn; tauto.
    + apply Dat. apply V. cbn; tauto.
  - intros (F & L & N & G & D) f I. cbn [In fieldOrder] in I.
    repeat (destruct I as [<- | I]); try contradiction.
    + now apply Fn.
    + now apply Ln.
    + now apply Nat.
    + now apply Gen.
    + now apply Dat.
Qed.

Lemma validateCharacter_accepts_witness :
  validateCharacter host20240615 (newCharacterValidator RegExp.emptyOnly)
    [ ("firstname", "Ada"); ("lastname", "Lovelace");
      ("nationality", "British"); ("gender", "female");
      ("date", "1990-12-10") ]
  = Ret Valid.
Proof.
  apply validateCharacter_accepts.
  repeat split;
    (eexists; split; [reflexivity |]);
    repeat split; try discriminate; try reflexivity; cbn; lia.
Defined.

Lemma nameRules_codes re f short long v g msg :
  nameRules re f short long v = Ret (Invalid g msg) ->
  g = f /\ In msg ["forgotten_field"; short; long; "profanity"].
Proof.
  unfold nameRules.
  destruct (negb (truthy v)).
  { intros E. injection E as <- <-. cbn; auto 12. }
  destruct (jsLength v) as [n |]; cbn [bind]; [| discriminate].
  destruct (negb (2 <=? n)).
  { intros E. injection E as <- <-. cbn; auto 12. }
  destruct (negb (n <=? 16)).
  { intros E. injection E as <- <-. cbn; auto 12. }
  destruct (negb (negb (RegExp.test re v))); [| discriminate].
  intros E. injection E as <- <-. cbn; auto 12.
Qed.

Lemma validateField_codes h re f v g msg :
  validateField h (newCharacterValidator re) f v = Ret (Invalid g msg) ->
  g = f /\ In f fieldOrder /\ In msg errorCodes.
Proof.
  intros E.
  destruct (in_dec string_dec f fieldOrder) as [I | NI].
  - split; [now apply validateField_field in E |]. split; [exact I |].
    cbn [In fieldOrder] in I.
    repeat (destruct I as [<- | I]); try contradiction.
    + rewrite validateField_firstname in E.
      apply nameRules_codes in E as [_ M]. cbn [In] in M. cbn [In errorCodes].
      intuition auto.
    + rewrite validateField_lastname in E.
      apply nameRules_codes in E as [_ M]. cbn [In] in M. cbn [In errorCodes].
      intuition auto.
    + rewrite validateField_nationality in E.
      destruct (negb (truthy v)); [injection E as <- <-; cbn; auto 12 |].
      destruct (negb (negb (RegExp.test re v))); [| discriminate E].
      injection E as <- <-. cbn; auto 12.
    + rewrite validateField_gender in E.
      destruct (negb (truthy v)); [| discriminate E].
      injection E as <- <-. cbn; auto 12.
    + rewrite validateField_date in E.
      destruct (negb (truthy v)); [injection E as <- <-; cbn; auto 12 |].
      destruct (isValidDate h v) as [[] | e]; cbn [bind negb] in E;
        [| injection E as <- <-; cbn; auto 12 | discriminate E].
      destruct (negb (negb (isTooYoung h v 8)));
        [injection E as <- <-; cbn; auto 12 |].
      destruct (negb (negb (isTooOld h v 100))); [| discriminate E].
      injection E as <- <-. cbn; auto 12.
  - exfalso.
    destruct (in_dec string_dec f objectPrototypeNames) as [P | NP].
    + cbn [In objectPrototypeNames] in P.
      repeat (destruct P as [<- | P]); try contradiction; discriminate E.
    + rewrite validateField_unknown in E by assumption. discriminate E.
Qed.

(** X4. The failures form a closed set.  A failure of [validateField]
    names the field it was called with, which is a field of the rule
    table, and carries one of the nine error codes; a failure of
    [validateCharacter] names a field of the rule table and carries one
    of the nine codes. *)
Theorem failures_are_closed (h : Host) (re : RegExp.t) :
  (forall f v g msg,
     validateField h (newCharacterValidator re) f v = Ret (Invalid g msg) ->
     g = f /\ In f fieldOrder /\ In msg errorCodes)
  /\ (forall c g msg,
        validateCharacter h (newCharacterValidator re) c
        = Ret (Invalid g msg) ->
        In g fieldOrder /\ In msg errorCodes).
Proof.
  split; [intros f v g msg; apply validateField_codes |].
  intros c g msg E. unfold validateCharacter in E.
  change (forIn (validators (newCharacterValidator re))) with fieldOrder in E.
  apply validateFields_inv in E; [| apply fieldOrder_own].
  destruct E as [[E _] | (b & f & a & _ & _ & C & _)]; [discriminate E |].
  apply validateField_codes in C as (-> & I & M). auto.
Qed.

Lemma failures_are_closed_witness :
  In "gender" fieldOrder /\ In "forgotten_field" errorCodes.
Proof.
  apply (proj2 (failures_are_closed host20240615 RegExp.emptyOnly)
           [("firstname", "Ada"); ("lastname", "Lovelace");
            ("nationality", "British")] "gender" "forgotten_field").
  reflexivity.
Defined.

(** ** The calendar rule and the age rules together *)

(** X5. In a zone within a day of UTC, [isValidDate] accepts exactly
    the strings of the strict format whose year is at least 100, whose
    month is 1 to 12 and whose day exists in that month, with the 29th
    of February in leap years only. *)
Theorem isValidDate_gregorian (h : Host) (s : string) :
  zoneInRange h ->
  (isValidDate h (Some s) = Ret true
   <-> exists ys ms ds,
         isoShape s ys ms ds
         /\ 100 <= decimal ys
         /\ 1 <= decimal ms <= 12
         /\ 1 <= decimal ds <= daysInMonth (decimal ys) (decimal ms - 1)).
Proof.
  intros Hz. split.
  - intros E.
    destruct (RegExp.test RegExp.isoDate (Some s)) eqn:T.
    + apply isoDate_test in T. destruct T as (ys & ms & ds & S).
      exists ys, ms, ds. split; [exact S |].
      apply (isValidDate_calendar h _ _ _ _ Hz S) in E.
      destruct E as (Y & [M D]). repeat split; lia.
    + unfold isValidDate in E. rewrite T in E. discriminate E.
  - intros (ys & ms & ds & S & Y & M & D).
    apply (isValidDate_calendar h _ _ _ _ Hz S).
    split; [exact Y |]. split; lia.
Qed.

Lemma isValidDate_gregorian_witness :
  isValidDate host20240615 (Some "2000-02-29") = Ret true.
Proof.
  apply isValidDate_gregorian.
  - unfold zoneInRange, host20240615, LocalTZA, msPerDay. lia.
  - exists "2000", "02", "29".
    split; [apply (isoShape_intro "2000" "02" "29"); reflexivity |].
    vm_compute. repeat split; discriminate.
Defined.

Lemma midnight_real_range y mn d :
  100 <= y <= 9999 -> realDate y mn d ->
  Z.abs (midnight y mn d) <= 8640000000000000.
Proof.
  intros Hy R. destruct (dayNumber_in_year _ _ _ R) as [B _].
  pose proof (DayFromYear_range y Hy).
  unfold midnight, msPerDay. lia.
Qed.

Lemma parseISODate_isoShape s ys ms ds :
  isoShape s ys ms ds ->
  100 <= decimal ys -> realDate (decimal ys) (decimal ms - 1) (decimal ds) ->
  parseISODate (Some s)
  = Some (midnight (decimal ys) (decimal ms - 1) (decimal ds)).
Proof.
  intros S Y R. destruct (isoShape_ranges _ _ _ _ S) as (Ry & Rm & Rd).
  destruct R as [Hm Hd].
  unfold parseISODate. cbn [orEmpty].
  rewrite (components_isoShape _ _ _ _ S), !falsy_ofZ.
  replace (decimal ys =? 0) with false by (symmetry; apply Z.eqb_neq; lia).
  replace (decimal ms =? 0) with false by (symmetry; apply Z.eqb_neq; lia).
  replace (decimal ds =? 0) with false by (symmetry; apply Z.eqb_neq; lia).
  cbn [orb ToNumber]. rewrite numSub_ofZ.
  apply DateUTC_ofZ; [lia |].
  apply midnight_real_range; [lia | now split].
Qed.

(** X6. A date that [isValidDate] accepts always parses: [parseISODate]
    gives the first instant (UTC) of the very day that is written, so
    after the calendar rule the age rules never take their branch for
    an invalid date. *)
Theorem valid_date_parses (h : Host) (s : string) :
  isValidDate h (Some s) = Ret true ->
  exists ys ms ds t,
    isoShape s ys ms ds
    /\ parseISODate (Some s) = Some t
    /\ t = Day t * msPerDay
    /\ civil t = (decimal ys, decimal ms - 1, decimal ds).
Proof.
  intros E.
  destruct (RegExp.test RegExp.isoDate (Some s)) eqn:T.
  2: { unfold isValidDate in E. rewrite T in E. discriminate E. }
  apply isoDate_test in T. destruct T as (ys & ms & ds & S).
  rewrite (isValidDate_isoShape h _ _ _ _ S) in E. injection E as E.
  destruct (isoShape_ranges _ _ _ _ S) as (Ry & Rm & Rd).
  apply readsBack_real in E as [Y R]; try lia.
  exists ys, ms, ds, (midnight (decimal ys) (decimal ms - 1) (decimal ds)).
  split; [exact S |]. split; [now apply parseISODate_isoShape |].
  split.
  - unfold midnight. now rewrite Day_midnight.
  - apply civil_dayNumber; [exact R |]. unfold midnight. apply Day_midnight.
Qed.

Lemma valid_date_parses_witness :
  exists ys ms ds t,
    isoShape "2024-02-29" ys ms ds
    /\ parseISODate (Some "2024-02-29") = Some t
    /\ t = Day t * msPerDay
    /\ civil t = (decimal ys, decimal ms - 1, decimal ds).
Proof.
  apply (valid_date_parses host20240615). vm_compute. reflexivity.
Defined.

(** X7. The age rules look at the UTC day of the clock only: two hosts
    whose clocks are on the same UTC day, at any time of day and in any
    zone, compute the same today and the same verdicts. *)
Theorem age_rules_depend_on_utc_day (h h' : Host) :
  Day (clock h) = Day (clock h') ->
  todayUTC h = todayUTC h'
  /\ forall v n, isTooYoung h v n = isTooYoung h' v n
                 /\ isTooOld h v n = isTooOld h' v n.
Proof.
  intros E.
  assert (T : todayUTC h = todayUTC h').
  { unfold todayUTC, getUTCFullYear, getUTCMonth, getUTCDate.
    destruct (same_day_fields _ _ E) as (-> & -> & ->). reflexivity. }
  split; [exact T |]. intros v n.
  unfold isTooYoung, isTooOld, cutoff. now rewrite T.
Qed.

Lemma age_rules_depend_on_utc_day_witness :
  todayUTC {| LocalTZA := 3600000; clock := 1718409600001 |}
  = todayUTC host20240615.
Proof.
  apply age_rules_depend_on_utc_day. reflexivity.
Defined.

Lemma monthStart_leap l mn :
  0 <= l <= 1 -> 0 <= mn <= 11 ->
  monthStart 0 mn <= monthStart l mn <= monthStart 0 mn + 1.
Proof.
  intros Hl H.
  assert (Cl : l = 0 \/ l = 1) by lia.
  assert (C : mn = 0 \/ mn = 1 \/ mn = 2 \/ mn = 3 \/ mn = 4 \/ mn = 5 \/
              mn = 6 \/ mn = 7 \/ mn = 8 \/ mn = 9 \/ mn = 10 \/ mn = 11) by lia.
  destruct Cl; subst l;
    repeat (destruct C as [-> | C]; [cbn -[Z.le Z.lt]; lia |]);
    subst; cbn -[Z.le Z.lt]; lia.
Qed.

Lemma leapDay_range y : 0 <= leapDay y <= 1.
Proof. unfold leapDay. destruct (isLeap y); lia. Qed.

Lemma cutoffDay_real h n :
  cutoffDay h n
  = DayFromYear (YearFromTime (clock h) - n)
    + monthStart (leapDay (YearFromTime (clock h) - n)) (MonthFromTime (clock h))
    + DateFromTime (clock h) - 1.
Proof.
  unfold cutoffDay. destruct (civil_real (clock h)) as [Hm _].
  now apply dayNumber_real.
Qed.

Lemma cutoffDay_zero h : cutoffDay h 0 = Day (clock h).
Proof. unfold cutoffDay. rewrite Z.sub_0_r. apply dayNumber_civil. Qed.

(** A larger bound gives an earlier cutoff, by a year at least. *)
Lemma cutoffDay_earlier h a b :
  a < b -> cutoffDay h b + 364 <= cutoffDay h a.
Proof.
  intros L. rewrite !cutoffDay_real.
  destruct (civil_real (clock h)) as [Hm _].
  set (Y := YearFromTime (clock h)) in *.
  pose proof (monthStart_leap _ _ (leapDay_range (Y - a)) Hm).
  pose proof (monthStart_leap _ _ (leapDay_range (Y - b)) Hm).
  pose proof (DayFromYear_step (Y - b)) as St. unfold DaysInYear in St.
  pose proof (DayFromYear_mono (Y - b + 1) (Y - a) ltac:(lia)).
  destruct (isLeap (Y - b)); lia.
Qed.

Lemma cutoffDay_mono h a b : a <= b -> cutoffDay h b <= cutoffDay h a.
Proof.
  intros L. destruct (Z.eq_dec a b) as [-> | N]; [lia |].
  pose proof (cutoffDay_earlier h a b ltac:(lia)). lia.
Qed.

Lemma cutoffDay_range h n :
  clockInRange h -> 0 <= n -> 100 <= YearFromTime (clock h) - n ->
  Z.abs (cutoffDay h n * msPerDay) <= 8640000000000000.
Proof.
  intros R Hn Y.
  pose proof (cutoffDay_mono h 0 n Hn) as Up. rewrite cutoffDay_zero in Up.
  pose proof (clock_day_range h R) as CR.
  assert (Lo : -683003 <= cutoffDay h n).
  { rewrite cutoffDay_real. destruct (civil_real (clock h)) as [Hm [Hd _]].
    pose proof (monthStart_range _ _
                  (leapDay_range (YearFromTime (clock h) - n)) Hm) as [S0 _].
    pose proof (DayFromYear_mono 100 (YearFromTime (clock h) - n) Y) as B.
    change (DayFromYear 100) with (-683003) in B. lia. }
  unfold msPerDay in *. lia.
Qed.

(** The cutoff of a bound, for every day of the year. *)
Lemma cutoff_any h n :
  clockInRange h -> 0 <= n -> 100 <= YearFromTime (clock h) - n ->
  cutoff h n = Some (cutoffDay h n * msPerDay).
Proof.
  intros R Hn Y. unfold cutoff.
  rewrite todayUTC_value by (assumption || lia).
  unfold getUTCFullYear, getUTCMonth, getUTCDate.
  destruct (same_day_fields (Day (clock h) * msPerDay) (clock h)
              (Day_midnight _)) as (-> & -> & ->).
  rewrite numSub_ofZ. apply DateUTC_ofZ; [lia |].
  now apply cutoffDay_range.
Qed.

Lemma isTooYoung_parsed h v t n :
  clockInRange h -> 0 <= n -> 100 <= YearFromTime (clock h) - n ->
  parseISODate v = Some t ->
  isTooYoung h v n = (cutoffDay h n <? Day t)
  /\ isTooOld h v n = (Day t <? cutoffDay h n).
Proof.
  intros R Hn Y P. pose proof (parseISODate_midnight _ _ P) as Mt.
  unfold isTooYoung, isTooOld, dateLt. rewrite P, (cutoff_any h n R Hn Y).
  cbn [isNaNDate dateGt]. rewrite Mt at 1 3.
  split; apply eq_true_iff_eq; rewrite !Z.ltb_lt; unfold msPerDay; lia.
Qed.

(** X8. For two bounds, the larger of which leaves today's year at 100
    or later: a date is both too young for the smaller bound and too
    old for the larger one exactly when it does not parse.  A date that
    parses fails one age rule at most. *)
Theorem both_age_rules_iff_unparseable (h : Host) (v : value) (a b : Z) :
  clockInRange h -> 0 <= a <= b -> 100 <= YearFromTime (clock h) - b ->
  (isTooYoung h v a = true /\ isTooOld h v b = true
   <-> parseISODate v = InvalidDate).
Proof.
  intros R [Ha Hab] Y. split.
  - intros [Yg Ol].
    destruct (parseISODate v) as [t |] eqn:P; [| reflexivity]. exfalso.
    destruct (isTooYoung_parsed h v t a R Ha ltac:(lia) P) as [E _].
    destruct (isTooYoung_parsed h v t b R ltac:(lia) Y P) as [_ E'].
    rewrite E in Yg. rewrite E' in Ol. apply Z.ltb_lt in Yg, Ol.
    pose proof (cutoffDay_mono h a b Hab). lia.
  - intros P. unfold isTooYoung, isTooOld. rewrite P. now split.
Qed.

Lemma isoShape_unique s ys ms ds ys' ms' ds' :
  isoShape s ys ms ds -> isoShape s ys' ms' ds' ->
  ys' = ys /\ ms' = ms /\ ds' = ds.
Proof.
  intros S S'. apply isoShape_chars in S, S'.
  destruct S as (a & b & c & d & e & f & g & i & -> & -> & -> & -> & _).
  destruct S' as (a' & b' & c' & d' & e' & f' & g' & i' & -> & -> & -> & E & _).
  injection E as <- <- <- <- <- <- <- <-. auto.
Qed.

Lemma isoShape_nonempty s ys ms ds : isoShape s ys ms ds -> s <> "".
Proof.
  intros S. apply isoShape_chars in S.
  destruct S as (a & b & c & d & e & f & g & i & _ & _ & _ & -> & _).
  discriminate.
Qed.

(** The date rules on a string of the strict format, as a table. *)
Lemma validateField_date_isoShape h re s ys ms ds :
  zoneInRange h -> clockInRange h -> 200 <= YearFromTime (clock h) ->
  isoShape s ys ms ds ->
  let day := dayNumber (decimal ys) (decimal ms - 1) (decimal ds) in
  (100 <= decimal ys /\ realDate (decimal ys) (decimal ms - 1) (decimal ds)
   -> validateField h (newCharacterValidator re) "date" (Some s)
      = if cutoffDay h 8 <? day then Ret (Invalid "date" "age_too_young")
        else if day <? cutoffDay h 100
             then Ret (Invalid "date" "age_too_old")
             else Ret Valid)
  /\ (~ (100 <= decimal ys
         /\ realDate (decimal ys) (decimal ms - 1) (decimal ds))
      -> validateField h (newCharacterValidator re) "date" (Some s)
         = Ret (Invalid "date" "invalid_date")).
Proof.
  intros Hz R Y S day.
  assert (T : truthy (Some s) = true)
    by (apply truthy_Some; eapply isoShape_nonempty; eassumption).
  pose proof (isValidDate_calendar h _ _ _ _ Hz S) as C.
  rewrite validateField_date, T. cbn [negb].
  split.
  - intros [Hy Rd]. rewrite (proj2 C (conj Hy Rd)). cbn [bind negb].
    pose proof (parseISODate_isoShape _ _ _ _ S Hy Rd) as P.
    destruct (isTooYoung_parsed h _ _ 8 R ltac:(lia) ltac:(lia) P) as [-> _].
    destruct (isTooYoung_parsed h _ _ 100 R ltac:(lia) ltac:(lia) P) as [_ ->].
    unfold midnight. rewrite Day_midnight, !negb_involutive. reflexivity.
  - intros N. rewrite (isValidDate_isoShape h _ _ _ _ S) in *.
    destruct (readsBack h (decimal ys) (decimal ms) (decimal ds)).
    + elim N. now apply C.
    + reflexivity.
Qed.

(** X9. The date field on a host whose zone is at a constant offset
    of at most a day from UTC (no zone rule that skips a local day) and
    whose clock is in year 200 or later.  With the cutoffs of 8 and of 100
    years as day numbers, a non-empty value is reported too young
    exactly when it is a date of the calendar (strict format, year 100
    or later) after the cutoff of 8 years, too old exactly when it is
    one before the cutoff of 100 years, and valid exactly when it is
    one from the cutoff of 100 years to the cutoff of 8 years, both
    days included. *)
Theorem date_field_verdicts (h : Host) (re : RegExp.t) (s : string) :
  zoneInRange h -> clockInRange h -> 200 <= YearFromTime (clock h) ->
  let r := validateField h (newCharacterValidator re) "date" (Some s) in
  let written ys ms ds :=
    isoShape s ys ms ds /\ 100 <= decimal ys
    /\ realDate (decimal ys) (decimal ms - 1) (decimal ds) in
  let day ys ms ds := dayNumber (decimal ys) (decimal ms - 1) (decimal ds) in
  (r = Ret (Invalid "date" "age_too_young")
   <-> exists ys ms ds, written ys ms ds /\ cutoffDay h 8 < day ys ms ds)
  /\ (r = Ret (Invalid "date" "age_too_old")
      <-> exists ys ms ds, written ys ms ds /\ day ys ms ds < cutoffDay h 100)
  /\ (r = Ret Valid
      <-> exists ys ms ds,
            written ys ms ds
            /\ cutoffDay h 100 <= day ys ms ds <= cutoffDay h 8).
Proof.
  intros Hz R Y r written day.
  pose proof (cutoffDay_mono h 8 100 ltac:(lia)) as CM.
  destruct (RegExp.test RegExp.isoDate (Some s)) eqn:T.
  - apply isoDate_test in T. destruct T as (ys & ms & ds & S).
    destruct (validateField_date_isoShape h re s ys ms ds Hz R Y S) as [Ok Bad].
    assert (U : forall ys' ms' ds' (P : Prop),
              written ys' ms' ds' /\ P ->
              ys' = ys /\ ms' = ms /\ ds' = ds).
    { intros ys' ms' ds' P [(S' & _) _]. eapply isoShape_unique; eassumption. }
    destruct (Z_le_dec 100 (decimal ys)) as [Hy | Hy].
    + destruct (realDate_dec (decimal ys) (decimal ms - 1) (decimal ds))
        as [_ Rb].
      destruct ((0 <=? decimal ms - 1) && (decimal ms - 1 <=? 11)
                && (1 <=? decimal ds)
                && (decimal ds <=? daysInMonth (decimal ys) (decimal ms - 1)))
        eqn:B.
      * specialize (Rb eq_refl). specialize (Ok (conj Hy Rb)).
        fold (day ys ms ds) in Ok. unfold r. rewrite Ok.
        destruct (Z.ltb_spec (cutoffDay h 8) (day ys ms ds));
          [| destruct (Z.ltb_spec (day ys ms ds) (cutoffDay h 100))];
          repeat split; try discriminate;
          try (intros _; exists ys, ms, ds; unfold written; auto; fail);
          try (intros _; exists ys, ms, ds; unfold written;
               repeat split; auto; lia);
          try (intros (ys' & ms' & ds' & W);
               destruct (U _ _ _ _ W) as (-> & -> & ->);
               destruct W as [_ W]; exfalso; lia).
      * assert (N : ~ (100 <= decimal ys
                       /\ realDate (decimal ys) (decimal ms - 1) (decimal ds))).
        { intros [_ Rd]. apply realDate_dec in Rd. congruence. }
        unfold r. rewrite (Bad N).
        repeat split; try discriminate;
          intros (ys' & ms' & ds' & W);
          destruct (U _ _ _ _ W) as (-> & -> & ->);
          destruct W as [(_ & Hy' & Rd) _]; elim N; auto.
    + assert (N : ~ (100 <= decimal ys
                     /\ realDate (decimal ys) (decimal ms - 1) (decimal ds)))
        by tauto.
      unfold r. rewrite (Bad N).
      repeat split; try discriminate;
        intros (ys' & ms' & ds' & W);
        destruct (U _ _ _ _ W) as (-> & -> & ->);
        destruct W as [(_ & Hy' & Rd) _]; elim N; auto.
  - assert (NS : forall ys ms ds (P : Prop), ~ (written ys ms ds /\ P)).
    { intros ys ms ds P [(S & _) _].
      assert (X : RegExp.test RegExp.isoDate (Some s) = true)
        by (apply isoDate_test; eauto).
      congruence. }
    unfold r. rewrite validateField_date. unfold isValidDate. rewrite T.
    cbn [negb bind].
    destruct (negb (truthy (Some s)));
      repeat split; try discriminate;
      intros (ys & ms & ds & W); elim (NS _ _ _ _ W).
Qed.

Lemma date_field_verdicts_witness :
  validateField host20240615 (newCharacterValidator RegExp.emptyOnly)
    "date" (Some "2016-06-15")
  = Ret Valid.
Proof.
  assert (R : clockInRange host20240615)
    by (unfold clockInRange, host20240615, clock; lia).
  assert (Hz : zoneInRange host20240615)
    by (unfold zoneInRange, host20240615, LocalTZA, msPerDay; lia).
  assert (Y : 200 <= YearFromTime (clock host20240615))
    by (vm_compute; discriminate).
  apply (proj2 (proj2 (date_field_verdicts host20240615 RegExp.emptyOnly
                         "2016-06-15" Hz R Y))).
  exists "2016", "06", "15". split; [split; [| split] |].
  - apply (isoShape_intro "2016" "06" "15"); reflexivity.
  - vm_compute. discriminate.
  - vm_compute. repeat split; discriminate.
  - vm_compute. split; discriminate.
Defined.

(** X10. Raising a bound moves the cutoff back: a date too young for a
    bound is too young for every larger bound, and a date too old for a
    bound is too old for every smaller one. *)
Theorem age_bounds_monotone (h : Host) (v : value) (a b : Z) :
  clockInRange h -> 0 <= a <= b -> 100 <= YearFromTime (clock h) - b ->
  (isTooYoung h v a = true -> isTooYoung h v b = true)
  /\ (isTooOld h v b = true -> isTooOld h v a = true).
Proof.
  intros R [Ha Hab] Y.
  destruct (parseISODate v) as [t |] eqn:P.
  - destruct (isTooYoung_parsed h v t a R Ha ltac:(lia) P) as [-> ->].
    destruct (isTooYoung_parsed h v t b R ltac:(lia) Y P) as [-> ->].
    pose proof (cutoffDay_mono h a b Hab).
    rewrite !Z.ltb_lt. lia.
  - unfold isTooYoung, isTooOld. rewrite P. auto.
Qed.

Lemma age_bounds_monotone_witness :
  isTooYoung host20240615 (Some "2016-06-16") 18 = true.
Proof.
  apply (proj1 (age_bounds_monotone host20240615 (Some "2016-06-16") 8 18
                  ltac:(unfold clockInRange, host20240615, clock; lia)
                  ltac:(lia)
                  ltac:(vm_compute; discriminate))).
  reflexivity.
Defined.

Lemma both_age_rules_iff_unparseable_witness :
  parseISODate (Some "2016-00-16") = InvalidDate.
Proof.
  apply (both_age_rules_iff_unparseable host20240615 (Some "2016-00-16") 8 100
           ltac:(unfold clockInRange, host20240615, clock; lia)
           ltac:(lia)
           ltac:(vm_compute; discriminate)).
  split; reflexivity.
Defined.

(** ** The pattern of the forbidden terms: values it cannot and must flag *)

Lemma hasWord_append a b : hasWord (a ++ b) = hasWord a || hasWord b.
Proof.
  induction a as [| x a IH]; cbn [append hasWord]; [reflexivity |].
  now rewrite IH, orb_assoc.
Qed.

Lemma hasWord_last s : isWord (lastChar s) = true -> hasWord s = true.
Proof.
  induction s as [| x s IH]; [discriminate |].
  destruct s as [| y s].
  - cbn [lastChar isWord hasWord]. intros ->. reflexivity.
  - change (lastChar (String x (String y s))) with (lastChar (String y s)).
    intros H. apply IH in H.
    change (RegExp.isWordChar x || hasWord (String y s) = true).
    rewrite H. apply orb_true_r.
Qed.

Lemma hasWord_first s : isWord (firstChar s) = true -> hasWord s = true.
Proof.
  destruct s as [| x s]; [discriminate |]. cbn [firstChar isWord hasWord].
  now intros ->.
Qed.

Lemma no_word_last s : hasWord s = false -> isWord (lastChar s) = false.
Proof.
  intros H. destruct (isWord (lastChar s)) eqn:E; [| reflexivity].
  apply hasWord_last in E. congruence.
Qed.

(** The first word character of a string. *)
Lemma hasWord_split s :
  hasWord s = true ->
  exists pre c post,
    s = pre ++ String c post /\ hasWord pre = false
    /\ RegExp.isWordChar c = true.
Proof.
  induction s as [| x s IH]; [discriminate |]. cbn [hasWord].
  destruct (RegExp.isWordChar x) eqn:W.
  - intros _. exists "", x, s. auto.
  - cbn [orb]. intros H. destruct (IH H) as (pre & c & post & -> & N & C).
    exists (String x pre), c, post. cbn [append hasWord]. rewrite W, N. auto.
Qed.

(** X11. A value without a word character (a letter a-z in either
    case, a digit or an underscore) is never flagged, whatever the
    terms.  When the list of terms is empty, or holds the empty term,
    the pattern is a bare word boundary: every value that has a word
    character is flagged, and a non-empty nationality with one is
    reported as profanity. *)
Theorem profanity_and_word_characters (terms : list string) (re : RegExp.t) :
  RegExp.ofTerms terms = Some re ->
  (forall s, RegExp.test re (Some s) = true -> hasWord s = true)
  /\ (In "" (alternatives terms) ->
      (forall s, RegExp.test re (Some s) = hasWord s)
      /\ forall h s, hasWord s = true ->
           validateField h (newCharacterValidator re) "nationality" (Some s)
           = Ret (Invalid "nationality" "profanity")).
Proof.
  intros E.
  assert (A : forall s, RegExp.test re (Some s) = true -> hasWord s = true).
  { intros s T. apply (profanity_test _ _ s E) in T.
    destruct T as (pre & mid & post & t & -> & _ & _ & X).
    rewrite <- append_assoc, hasWord_append.
    destruct (isWord (lastChar (pre ++ mid))) eqn:L.
    - now rewrite (hasWord_last _ L).
    - cbn [xorb] in X. rewrite (hasWord_first _ X). apply orb_true_r. }
  split; [exact A |]. intros I.
  assert (B : forall s, RegExp.test re (Some s) = hasWord s).
  { intros s. apply eq_true_iff_eq. split; [apply A |].
    intros W. apply (profanity_test _ _ s E).
    destruct (hasWord_split s W) as (pre & c & post & -> & N & C).
    exists pre, "", (String c post), "". cbn [append].
    rewrite append_empty_r. repeat split; auto.
    cbn [firstChar isWord]. now rewrite (no_word_last _ N), C. }
  split; [exact B |]. intros h s W.
  rewrite validateField_nationality, B, W.
  assert (T : truthy (Some s) = true).
  { apply truthy_Some. intros ->. discriminate W. }
  now rewrite T.
Qed.

Lemma profanity_and_word_characters_witness :
  validateField host20240615
    (newCharacterValidator
       {| RegExp.pattern := RegExp.Seq RegExp.Empty RegExp.WordBoundary;
          RegExp.ignoreCase := true |})
    "nationality" (Some "Dutch")
  = Ret (Invalid "nationality" "profanity").
Proof.
  exact (proj2 (proj2 (profanity_and_word_characters [] _ eq_refl)
                  (or_introl eq_refl))
           host20240615 "Dutch" eq_refl).
Defined.

(** ** What [parseISODate] reads *)

Lemma split_nonempty c s : split c s <> [].
Proof.
  destruct s as [| x s]; cbn [split]; [discriminate |].
  destruct (Ascii.eqb x c); [discriminate |].
  destruct (split c s); discriminate.
Qed.

Lemma split_append c a b :
  split c (a ++ String c b) = (split c a ++ split c b)%list.
Proof.
  induction a as [| x a IH]; cbn [append split].
  - now rewrite Ascii.eqb_refl.
  - destruct (Ascii.eqb x c); rewrite IH; [reflexivity |].
    pose proof (split_nonempty c a) as N.
    destruct (split c a) as [| p ps]; [contradiction | reflexivity].
Qed.

(** X12. [parseISODate] reads the first three pieces between dashes
    and nothing after them: text added after a further dash changes
    neither the parsed date nor the verdict of an age rule. *)
Theorem parseISODate_ignores_tail (s extra : string) :
  (3 <= List.length (split "-" s))%nat ->
  parseISODate (Some (s ++ "-" ++ extra)) = parseISODate (Some s)
  /\ forall h n,
       isTooYoung h (Some (s ++ "-" ++ extra)) n = isTooYoung h (Some s) n
       /\ isTooOld h (Some (s ++ "-" ++ extra)) n = isTooOld h (Some s) n.
Proof.
  intros L.
  assert (C : components (s ++ "-" ++ extra) = components s).
  { unfold components.
    change (s ++ "-" ++ extra) with (s ++ String "-" extra).
    rewrite split_append, map_app.
    rewrite !nth_error_app1 by (rewrite length_map; lia). reflexivity. }
  assert (P : parseISODate (Some (s ++ "-" ++ extra)) = parseISODate (Some s))
    by (unfold parseISODate; cbn [orEmpty]; now rewrite C).
  split; [exact P |]. intros h n.
  unfold isTooYoung, isTooOld. now rewrite P.
Qed.

Lemma parseISODate_ignores_tail_witness :
  parseISODate (Some "2016-06-16-and-more") = parseISODate (Some "2016-06-16").
Proof.
  apply (proj1 (parseISODate_ignores_tail "2016-06-16" "and-more"
                  ltac:(cbn; lia))).
Defined.

(** ** Letter case *)

Lemma eqNoCase_refl s : eqNoCase s s = true.
Proof.
  induction s as [| x s IH]; cbn [eqNoCase]; [reflexivity |].
  now rewrite Ascii.eqb_refl, IH.
Qed.

Lemma eqNoCase_sym a b : eqNoCase a b = true -> eqNoCase b a = true.
Proof.
  revert b. induction a as [| x a IH]; intros [| y b] E;
    try discriminate E; [reflexivity |].
  cbn [eqNoCase] in *. apply andb_prop in E as [C E].
  apply Ascii.eqb_eq in C. now rewrite C, Ascii.eqb_refl, IH.
Qed.

Lemma eqNoCase_trans a b c :
  eqNoCase a b = true -> eqNoCase b c = true -> eqNoCase a c = true.
Proof.
  revert b c. induction a as [| x a IH]; intros [| y b] [| z c] E F;
    try discriminate E; try discriminate F; [reflexivity |].
  cbn [eqNoCase] in *. apply andb_prop in E as [C E].
  apply andb_prop in F as [D F].
  apply Ascii.eqb_eq in C, D. rewrite C, D, Ascii.eqb_refl.
  now rewrite (IH _ _ E F).
Qed.

(** A string equal to [a ++ b] up to letter case splits in the same
    place. *)
Lemma eqNoCase_split s a b :
  eqNoCase s (a ++ b) = true ->
  exists a' b', s = a' ++ b' /\ eqNoCase a' a = true /\ eqNoCase b' b = true.
Proof.
  revert s. induction a as [| x a IH]; intros s E.
  - exists "", s. auto.
  - destruct s as [| y s]; [discriminate E |].
    cbn [append eqNoCase] in E. apply andb_prop in E as [C E].
    destruct (IH _ E) as (a' & b' & -> & A & B).
    exists (String y a'), b'. cbn [append eqNoCase]. rewrite C, A. auto.
Qed.

Lemma eqNoCase_first a b :
  eqNoCase a b = true -> isWord (firstChar a) = isWord (firstChar b).
Proof.
  destruct a as [| x a], b as [| y b]; try discriminate; [reflexivity |].
  cbn [eqNoCase firstChar isWord]. intros E. apply andb_prop in E as [C _].
  apply Ascii.eqb_eq in C.
  now rewrite <- (canonicalize_word x), C, canonicalize_word.
Qed.

Lemma eqNoCase_append a a' b b' :
  eqNoCase a a' = true -> eqNoCase b b' = true ->
  eqNoCase (a ++ b) (a' ++ b') = true.
Proof.
  revert a'. induction a as [| x a IH]; intros [| y a'] A B;
    try discriminate A; [exact B |].
  cbn [append eqNoCase] in *. apply andb_prop in A as [C A].
  now rewrite C, IH.
Qed.

Lemma occursBeforeBoundary_case terms s s' :
  eqNoCase s' s = true ->
  occursBeforeBoundary terms s -> occursBeforeBoundary terms s'.
Proof.
  intros E (pre & mid & post & t & -> & I & Q & X).
  apply eqNoCase_split in E. destruct E as (pre' & r & -> & P & E).
  apply eqNoCase_split in E. destruct E as (mid' & post' & -> & M & O).
  exists pre', mid', post', t. split; [reflexivity |]. split; [exact I |].
  split; [eapply eqNoCase_trans; eassumption |].
  rewrite (eqNoCase_last (pre' ++ mid') (pre ++ mid))
    by now apply eqNoCase_append.
  now rewrite (eqNoCase_first _ _ O).
Qed.

(** X13. The profanity rule does not look at letter case: two values
    that differ in the case of their letters only are flagged alike,
    and get the same verdict as a nationality. *)
Theorem profanity_ignores_case (terms : list string) (re : RegExp.t)
  (s s' : string) :
  RegExp.ofTerms terms = Some re -> eqNoCase s' s = true ->
  RegExp.test re (Some s') = RegExp.test re (Some s)
  /\ forall h,
       validateField h (newCharacterValidator re) "nationality" (Some s')
       = validateField h (newCharacterValidator re) "nationality" (Some s).
Proof.
  intros E Q.
  assert (T : RegExp.test re (Some s') = RegExp.test re (Some s)).
  { apply eq_true_iff_eq. rewrite !(profanity_test _ _ _ E). split.
    - apply occursBeforeBoundary_case. now apply eqNoCase_sym.
    - now apply occursBeforeBoundary_case. }
  split; [exact T |]. intros h.
  rewrite !validateField_nationality, T.
  assert (N : truthy (Some s') = truthy (Some s)).
  { destruct s as [| x s], s' as [| y s']; try discriminate Q; reflexivity. }
  now rewrite N.
Qed.

Lemma profanity_ignores_case_witness :
  RegExp.test
    {| RegExp.pattern :=
         RegExp.Seq (RegExp.literal "ass") RegExp.WordBoundary;
       RegExp.ignoreCase := true |} (Some "BadAsS")
  = RegExp.test
      {| RegExp.pattern :=
           RegExp.Seq (RegExp.literal "ass") RegExp.WordBoundary;
         RegExp.ignoreCase := true |} (Some "badass").
Proof.
  exact (proj1 (profanity_ignores_case ["ass"] _ "badass" "BadAsS"
                  eq_refl eq_refl)).
Defined.

(** ** The cutoff on a leap day *)

(** X14. On a 29th of February, for a bound whose cutoff year is not a
    leap year, the cutoff is the 1st of March of that year: a date of
    birth on that 1st of March is neither too young nor too old for the
    bound. *)
Theorem leap_day_cutoff (h : Host) (n : Z) :
  clockInRange h -> 0 <= n ->
  let Y := YearFromTime (clock h) in
  100 <= Y - n ->
  MonthFromTime (clock h) = 1 -> DateFromTime (clock h) = 29 ->
  isLeap (Y - n) = false ->
  cutoff h n = Some (midnight (Y - n) 2 1)
  /\ civil (midnight (Y - n) 2 1) = (Y - n, 2, 1)
  /\ forall v,
       parseISODate v = Some (midnight (Y - n) 2 1) ->
       isTooYoung h v n = false /\ isTooOld h v n = false.
Proof.
  intros R Hn Y Hy M D L.
  assert (C : cutoffDay h n = dayNumber (Y - n) 2 1).
  { rewrite cutoffDay_real. fold Y. rewrite M, D.
    rewrite (dayNumber_real (Y - n) 2 1) by lia.
    unfold leapDay. rewrite L.
    change (monthStart 0 2) with 59. change (monthStart 0 1) with 31. lia. }
  assert (V : cutoff h n = Some (midnight (Y - n) 2 1)).
  { rewrite (cutoff_any h n R Hn Hy), C. reflexivity. }
  split; [exact V |]. split.
  - apply civil_dayNumber; [| unfold midnight; apply Day_midnight].
    split; [lia |]. cbn [daysInMonth]. lia.
  - intros v P. unfold isTooYoung, isTooOld, dateLt. rewrite P, V.
    cbn [isNaNDate dateGt]. now rewrite Z.ltb_irrefl.
Qed.

Lemma leap_day_cutoff_witness :
  cutoff host20240229 1 = Some (midnight 2023 2 1).
Proof.
  apply (leap_day_cutoff host20240229 1
           ltac:(unfold clockInRange, host20240229, clock; lia)
           ltac:(lia)
           ltac:(vm_compute; discriminate)
           eq_refl eq_refl eq_refl).
Defined.
